(** * hashivault_auth_ldap: the LDAP auth-method reconciler

    A shallow embedding of
    [src/ansible/modules/hashivault/hashivault_auth_ldap.py]:
    the argument schema declared by [main], the construction of the desired
    state from [module.params], the read of the current remote
    configuration, the key-by-key comparison loop and the conditional
    [configure] call.

    Scope of the model.
    - Python values are [None], booleans, integers, strings and lists
      (floats and nested dictionaries do not occur in the argument schema
      and are left out of the value type).
    - A Python [str] is modelled by the byte string of its UTF-8 encoding;
      [str.lower] is a method of an abstract [Python], known on ASCII
      strings, where it is the ASCII lower-casing, and on two Greek strings.
    - The hvac client is external: it is a record of two operations over an
      abstract remote world.  The read is taken to be free of side effects.
    - The [@hashiwrapper] decorator and [hashivault_auth_client] are not part
      of the file; the body of the function is modelled, with the client
      given, and an exception leaving the body is an explicit outcome. *)

From Stdlib Require Import ZArith String Ascii List Bool.
From stdpp Require Import base option list strings gmap fin_maps.

#[local] Set Warnings "-register-all".
Local Open Scope string_scope.
Local Open Scope list_scope.

(** ** Python values *)

Inductive value : Type :=
| VNone
| VBool (b : bool)
| VInt (n : Z)
| VStr (s : string)
| VList (l : list value).

Definition int_of_bool (b : bool) : Z := if b then 1%Z else 0%Z.

(** Python's [==] on the modelled values.  [bool] is a subclass of [int], so
    [False == 0] and [True == 1] hold; lists compare element by element. *)
Fixpoint py_eq (v w : value) : bool :=
  match v, w with
  | VNone, VNone => true
  | VBool a, VBool b => Bool.eqb a b
  | VBool a, VInt n => Z.eqb (int_of_bool a) n
  | VInt n, VBool b => Z.eqb n (int_of_bool b)
  | VInt n, VInt m => Z.eqb n m
  | VStr s, VStr t => String.eqb s t
  | VList l, VList l' =>
      (fix py_eq_list (xs ys : list value) {struct xs} : bool :=
         match xs, ys with
         | [], [] => true
         | x :: xs', y :: ys' => py_eq x y && py_eq_list xs' ys'
         | _, _ => false
         end) l l'
  | _, _ => false
  end.

(** [v != w] *)
Definition py_ne (v w : value) : bool := negb (py_eq v w).

(** [v is None] *)
Definition is_None (v : value) : bool :=
  match v with VNone => true | _ => false end.

(** ** Strings and [str.lower]

    A Python [str] is modelled by the byte string of its UTF-8 encoding, which
    determines it.  On ASCII strings [str.lower] maps [A]-[Z] to [a]-[z] and
    keeps every other character: that is [lower_ascii] below.  On other
    strings it follows the Unicode case tables, which are not modelled: the
    method is a field of the class [Python], known only by the laws the class
    states (lower-casing of ASCII strings, and the lower-casing of two Greek
    strings, where a capital sigma that ends a word becomes a final sigma). *)

Definition is_upper (a : ascii) : bool :=
  let n := nat_of_ascii a in Nat.leb 65 n && Nat.leb n 90.

Definition ascii_lower (a : ascii) : ascii :=
  if is_upper a then ascii_of_nat (nat_of_ascii a + 32) else a.

(** ASCII lower-casing of a string. *)
Fixpoint lower_ascii (s : string) : string :=
  match s with
  | EmptyString => EmptyString
  | String a s' => String (ascii_lower a) (lower_ascii s')
  end.

(** The string holds ASCII characters only (bytes below 128). *)
Fixpoint is_ascii (s : string) : bool :=
  match s with
  | EmptyString => true
  | String a s' => Nat.ltb (nat_of_ascii a) 128 && is_ascii s'
  end.

(** The string holds none of the letters [A]-[Z]. *)
Fixpoint no_upper (s : string) : bool :=
  match s with
  | EmptyString => true
  | String a s' => negb (is_upper a) && no_upper s'
  end.

(** Four Greek letters and the final sigma, in UTF-8. *)
Definition utf8_2 (b1 b2 : nat) : string :=
  String (ascii_of_nat b1) (String (ascii_of_nat b2) EmptyString).

Definition GREEK_CAPITAL_ALPHA : string := utf8_2 206 145.     (* U+0391 *)
Definition GREEK_CAPITAL_SIGMA : string := utf8_2 206 163.     (* U+03A3 *)
Definition greek_small_alpha : string := utf8_2 206 177.       (* U+03B1 *)
Definition greek_small_sigma : string := utf8_2 207 131.       (* U+03C3 *)
Definition greek_small_final_sigma : string := utf8_2 207 130. (* U+03C2 *)

(** An uppercase letter and its lowercase letter: the ASCII letters, whose
    codes are 32 apart, and the two Greek letters above. *)
Inductive case_pair : string -> string -> Prop :=
| cp_ascii a b :
    is_upper a = true -> nat_of_ascii b = nat_of_ascii a + 32 ->
    case_pair (String a EmptyString) (String b EmptyString)
| cp_alpha : case_pair GREEK_CAPITAL_ALPHA greek_small_alpha
| cp_sigma : case_pair GREEK_CAPITAL_SIGMA greek_small_sigma.

(** Two strings differ only in the case of their letters: they are equal
    character by character, but that a letter of one may stand against the
    same letter in the other case. *)
Inductive differ_only_in_case : string -> string -> Prop :=
| doc_nil : differ_only_in_case "" ""
| doc_same a s t :
    differ_only_in_case s t -> differ_only_in_case (String a s) (String a t)
| doc_lower u l s t :
    case_pair u l -> differ_only_in_case s t ->
    differ_only_in_case (u ++ s) (l ++ t)
| doc_upper u l s t :
    case_pair u l -> differ_only_in_case s t ->
    differ_only_in_case (l ++ s) (u ++ t).

(** What the development knows of the interpreter: [str.lower]. *)
Class Python : Type := {
  str_lower : string -> string;
  str_lower_ascii :
    forall s, is_ascii s = true -> str_lower s = lower_ascii s;
  str_lower_final_sigma :
    str_lower (GREEK_CAPITAL_ALPHA ++ GREEK_CAPITAL_SIGMA)
      = (greek_small_alpha ++ greek_small_final_sigma)%string;
  str_lower_small_sigma :
    str_lower (greek_small_alpha ++ greek_small_sigma)
      = (greek_small_alpha ++ greek_small_sigma)%string
}.

(** ** Exceptions and outcomes *)

Inductive exn : Type :=
| AttributeError              (* [.lower()] on a value that is not a [str] *)
| InvalidPath                 (* hvac.exceptions.InvalidPath *)
| ClientError (msg : string). (* any other exception of the client library *)

Inductive outcome (A : Type) : Type :=
| Returns (a : A)
| Raises (e : exn).
Arguments Returns {A} a.
Arguments Raises {A} e.

(** ** Dictionaries

    [module.params] and the configuration read from the server are only
    looked up: they are finite maps.  [desired_state] is iterated in
    insertion order and has an entry deleted: it is an association list in
    the order of the dictionary display. *)

Abbreviation pydict := (gmap string value).
Abbreviation kwdict := (list (string * value)).

(** [d.get(k)]: the value, or [None] when the key is absent *)
Definition get (d : pydict) (k : string) : value := default VNone (d !! k).

(** [d[k]] on an insertion-ordered dictionary *)
Fixpoint getitem (d : kwdict) (k : string) : option value :=
  match d with
  | [] => None
  | (k', v) :: d' => if String.eqb k' k then Some v else getitem d' k
  end.

(** [del d[k]] *)
Fixpoint delitem (d : kwdict) (k : string) : kwdict :=
  match d with
  | [] => []
  | (k', v) :: d' =>
      if String.eqb k' k then delitem d' k else (k', v) :: delitem d' k
  end.

Definition keys (d : kwdict) : list string := map fst d.

(** [repr(k)] of a key made of letters, digits and underscores, which is what
    [str(KeyError(k))] shows. *)
Definition repr (k : string) : string := "'" ++ k ++ "'".

(** ** The argument schema declared by [main] (lines 182-214) *)

Inductive argtype : Type := TStr | TBool | TInt | TList.

Record FieldSpec : Type := {
  required : bool;
  type : argtype;
  default_value : value;
  no_log : bool;
  aliases : list string
}.

Definition field (t : argtype) (d : value) (al : list string) : FieldSpec :=
  {| required := false; type := t; default_value := d; no_log := false;
     aliases := al |}.

Definition default_groupfilter : string :=
  "(|(memberUid={{.Username}})(member={{.UserDN}})(uniqueMember={{.UserDN}}))".
Definition default_userfilter : string := "({{.UserAttr}}={{.Username}})".

(** The assignments [argspec[name] = dict(...)], in the order of the source. *)
Definition main_fields : list (string * FieldSpec) :=
  [ ("mount_point", field TStr (VStr "ldap") []);
    ("anonymous_group_search", field TBool (VBool false) []);
    ("binddn", field TStr (VStr "") ["bind_dn"]);
    ("bindpass",
      {| required := false; type := TStr; default_value := VNone;
         no_log := true; aliases := ["bind_pass"] |});
    ("case_sensitive_names", field TBool (VBool false) []);
    ("certificate", field TStr (VStr "") []);
    ("deny_null_bind", field TBool (VBool true) []);
    ("discoverdn", field TBool (VBool false) ["discover_dn"]);
    ("groupattr", field TStr (VStr "cn") ["group_attr"]);
    ("groupdn", field TStr (VStr "") ["group_dn"]);
    ("groupfilter", field TStr (VStr default_groupfilter) ["group_filter"]);
    ("insecure_tls", field TBool (VBool false) []);
    ("request_timeout", field TInt (VInt 90) []);
    ("starttls", field TBool (VBool false) []);
    ("tls_max_version", field TStr (VStr "tls12") []);
    ("tls_min_version", field TStr (VStr "tls12") []);
    ("token_bound_cidrs", field TList (VList []) []);
    ("token_explicit_max_ttl", field TInt (VInt 0) []);
    ("token_max_ttl", field TInt (VInt 0) []);
    ("token_no_default_policy", field TBool (VBool false) []);
    ("token_num_uses", field TInt (VInt 0) []);
    ("token_period", field TInt (VInt 0) []);
    ("token_policies", field TList (VList []) []);
    ("token_ttl", field TInt (VInt 0) []);
    ("token_type", field TStr (VStr "default") []);
    ("upndomain", field TStr (VStr "") ["upn_domain"]);
    ("ldap_url", field TStr (VStr "ldap://127.0.0.1") []);
    ("use_token_groups", field TBool (VBool false) []);
    ("userattr", field TStr (VStr "cn") ["user_attr"]);
    ("userdn", field TStr (VStr "") ["user_dn"]);
    ("userfilter", field TStr (VStr default_userfilter) []);
    ("username_as_alias", field TBool (VBool false) []) ].

(** [argspec = hashivault_argspec()] followed by the assignments.  The base
    schema [hashivault_argspec()] is not part of the file: it is a
    parameter. *)
Definition argspec (hashivault_argspec : gmap string FieldSpec)
  : gmap string FieldSpec :=
  foldl (fun a kv => <[kv.1 := kv.2]> a) hashivault_argspec main_fields.

(** Modelled from the spec: the names of the field catalog of section 6
    ("Field catalog (name: type/default)"), in the order it lists them. *)
Definition field_catalog : list string :=
  [ "mount_point"; "ldap_url"; "anonymous_group_search"; "request_timeout";
    "token_bound_cidrs"; "token_explicit_max_ttl"; "token_no_default_policy";
    "token_num_uses"; "token_period"; "token_policies"; "token_type";
    "userfilter"; "username_as_alias"; "case_sensitive_names"; "starttls";
    "tls_min_version"; "tls_max_version"; "insecure_tls"; "certificate";
    "binddn"; "bindpass"; "userdn"; "userattr"; "discoverdn";
    "deny_null_bind"; "upndomain"; "groupfilter"; "groupattr"; "groupdn";
    "token_ttl"; "token_max_ttl" ].

(** ** Building the desired state (lines 230-267) *)

(** [v.lower()]: defined on strings only *)
Definition py_lower {py : Python} (v : value) : outcome value :=
  match v with
  | VStr s => Returns (VStr (str_lower s))
  | _ => Raises AttributeError
  end.

(** The dictionary display of lines 230-263.  The two [.lower()] calls are
    the only sub-expressions that can raise. *)
Definition desired_state_display {py : Python} (params : pydict) : outcome kwdict :=
  match py_lower (get params "groupattr"), py_lower (get params "userattr") with
  | Returns groupattr, Returns userattr =>
      Returns
        [ ("anonymous_group_search", get params "anonymous_group_search");
          ("binddn", get params "binddn");
          ("bindpass", get params "bindpass");
          ("case_sensitive_names", get params "case_sensitive_names");
          ("certificate", get params "certificate");
          ("deny_null_bind", get params "deny_null_bind");
          ("discoverdn", get params "discoverdn");
          ("groupattr", groupattr);
          ("groupdn", get params "groupdn");
          ("groupfilter", get params "groupfilter");
          ("insecure_tls", get params "insecure_tls");
          ("request_timeout", get params "request_timeout");
          ("starttls", get params "starttls");
          ("tls_max_version", get params "tls_max_version");
          ("tls_min_version", get params "tls_min_version");
          ("token_bound_cidrs", get params "token_bound_cidrs");
          ("token_explicit_max_ttl", get params "token_explicit_max_ttl");
          ("token_max_ttl", get params "token_max_ttl");
          ("token_no_default_policy", get params "token_no_default_policy");
          ("token_num_uses", get params "token_num_uses");
          ("token_period", get params "token_period");
          ("token_policies", get params "token_policies");
          ("token_ttl", get params "token_ttl");
          ("token_type", get params "token_type");
          ("upndomain", get params "upndomain");
          ("url", get params "ldap_url");
          ("use_pre111_group_cn_behavior",
            get params "use_pre111_group_cn_behavior");
          ("use_token_groups", get params "use_token_groups");
          ("userattr", userattr);
          ("userdn", get params "userdn");
          ("userfilter", get params "userfilter");
          ("username_as_alias", get params "username_as_alias") ]
  | Raises e, _ => Raises e
  | _, Raises e => Raises e
  end.

(** Lines 265-267: [if desired_state['bindpass'] is None: del ...] *)
Definition drop_absent_bindpass (d : kwdict) : kwdict :=
  match getitem d "bindpass" with
  | Some v => if is_None v then delitem d "bindpass" else d
  | None => d
  end.

(** The value of the variable [desired_state] when the loop starts. *)
Definition desired_state {py : Python} (params : pydict) : outcome kwdict :=
  match desired_state_display params with
  | Returns d => Returns (drop_absent_bindpass d)
  | Raises e => Raises e
  end.

(** ** The hvac client and the monad of the function body *)

(** The calls the module makes on the client, as they are written:
    [client.auth.ldap.read_configuration(mount_point=...)] and
    [client.auth.ldap.configure] applied to a dictionary of keyword
    arguments. *)
Inductive call : Type :=
| read_configuration_call (mount_point : value)
| configure_call (kwargs : kwdict).

(** The client over a remote world [W].  A read answers with the ['data']
    mapping or raises; [configure] may change the world and may raise. *)
Record hvac_client (W : Type) : Type := {
  read_configuration : value -> W -> outcome pydict;
  configure : kwdict -> W -> W * outcome unit
}.
Arguments read_configuration {W} _ _ _.
Arguments configure {W} _ _ _.

(** The state threaded through the body: the remote world and the log of
    client calls made so far. *)
Record state (W : Type) : Type := { remote : W; calls : list call }.
Arguments remote {W} _.
Arguments calls {W} _.

Definition M (W A : Type) : Type := state W -> state W * outcome A.

Definition ret {W A} (a : A) : M W A := fun st => (st, Returns a).

Definition bind {W A B} (m : M W A) (k : A -> M W B) : M W B :=
  fun st =>
    match m st with
    | (st', Returns a) => k a st'
    | (st', Raises e) => (st', Raises e)
    end.

Definition raise {W A} (e : exn) : M W A := fun st => (st, Raises e).

(** Lifting of a computation that has no effect on the client. *)
Definition lift {W A} (o : outcome A) : M W A := fun st => (st, o).

(** [try: m  except InvalidPath: h] *)
Definition try_except_InvalidPath {W A} (m h : M W A) : M W A :=
  fun st =>
    match m st with
    | (st', Raises InvalidPath) => h st'
    | r => r
    end.

Declare Scope py_scope.
Delimit Scope py_scope with py.
Notation "x <- m ;; k" := (bind m (fun x => k))
  (at level 100, m at next level, right associativity) : py_scope.
Notation "m ;; k" := (bind m (fun _ => k))
  (at level 100, right associativity) : py_scope.

Definition do_read_configuration {W} (client : hvac_client W)
    (mount_point : value) : M W pydict :=
  fun st =>
    ({| remote := remote st;
        calls := calls st ++ [read_configuration_call mount_point] |},
     read_configuration client mount_point (remote st)).

Definition do_configure {W} (client : hvac_client W) (kwargs : kwdict)
    : M W unit :=
  fun st =>
    let (w', r) := configure client kwargs (remote st) in
    ({| remote := w'; calls := calls st ++ [configure_call kwargs] |}, r).

(** ** The result dictionaries of the function *)

Inductive result : Type :=
| Failed (msg : string)
    (* {'failed': True, 'msg': msg} *)
| Done (changed : bool) (before : pydict) (after : kwdict).
    (* {'changed': changed, 'diff': {'before': ..., 'after': ...}} *)

(** ** The comparison loop (lines 279-287)

    [inl r]: the loop left the function with [return r];
    [inr changed]: the loop ran to its end.  With [current_state] a mapping
    and the modelled values, [!=] raises nothing, so the only exception of
    the [try] block is the [KeyError] of [current_state[k]]. *)
Fixpoint compare_loop (items : kwdict) (current_state : pydict)
    (changed : bool) : result + bool :=
  match items with
  | [] => inr changed
  | (k, v) :: items' =>
      if negb (String.eqb k "bindpass") then
        match current_state !! k with
        | Some c =>
            compare_loop items' current_state
              (if py_ne v c then true else changed)
        | None => inl (Failed ("HVAC unsupported parameter: " ++ repr k))
        end
      else compare_loop items' current_state changed
  end.

(** ** [hashivault_auth_ldap(module)] (lines 225-299) *)

Section Reconciler.
Context {py : Python}.

Record AnsibleModule : Type := { params : pydict; check_mode : bool }.

Local Open Scope py_scope.

Definition hashivault_auth_ldap {W} (client : hvac_client W)
    (module : AnsibleModule) : M W result :=
  let params := params module in
  let changed := false in
  let mount_point := get params "mount_point" in
  desired_state <- lift (desired_state params) ;;
  current_state <-
    try_except_InvalidPath (do_read_configuration client mount_point)
                           (ret ∅) ;;
  match compare_loop desired_state current_state changed with
  | inl failure => ret failure
  | inr changed =>
      (if changed && negb (check_mode module)
       then do_configure client desired_state
       else ret tt) ;;
      ret (Done changed current_state desired_state)
  end.

Local Close Scope py_scope.

(** Running the body from a remote world with an empty call log. *)
Definition run {W} (client : hvac_client W) (module : AnsibleModule) (w : W)
  : state W * outcome result :=
  hashivault_auth_ldap client module {| remote := w; calls := [] |}.

(** The mapping the loop compares against, for a given answer of the read. *)
Definition current_state_of (r : outcome pydict) : option pydict :=
  match r with
  | Returns d => Some d
  | Raises InvalidPath => Some ∅
  | Raises _ => None
  end.

(** The calls of a log that are writes. *)
Definition writes (l : list call) : list kwdict :=
  omap (fun c => match c with configure_call kw => Some kw | _ => None end) l.

(** hvac binds the keyword arguments of [configure] to its signature, where
    [mount_point] has a default: the mount a call addresses. *)
Definition configure_mount (DEFAULT_MOUNT_POINT : value) (kwargs : kwdict)
  : value :=
  match getitem kwargs "mount_point" with
  | Some m => m
  | None => DEFAULT_MOUNT_POINT
  end.

(** ** Concrete inputs used to exercise the theorems *)

(** The parameters Ansible hands over when the task sets no option: every
    declared field at its default. *)
Definition default_params : pydict :=
  list_to_map ((fun kv => (kv.1, default_value kv.2)) <$> main_fields).

(** A small stand-in for the server: one stored mapping per mount.  A read
    of a mount that holds nothing raises [InvalidPath]; [configure] stores
    its keyword arguments under the mount it addresses. *)
Definition store_client : hvac_client (gmap string pydict) :=
  {| read_configuration := fun mp w =>
       match mp with
       | VStr m =>
           match w !! m with
           | Some d => Returns d
           | None => Raises InvalidPath
           end
       | _ => Raises (ClientError "mount_point")
       end;
     configure := fun kw w =>
       match configure_mount (VStr "ldap") kw with
       | VStr m => (<[m := list_to_map kw]> w, Returns tt)
       | _ => (w, Raises (ClientError "mount_point"))
       end |}.

(** A client whose read answers [r] whatever the mount, and whose write is
    that of [client]. *)
Definition answering {W} (client : hvac_client W) (r : outcome pydict)
  : hvac_client W :=
  {| read_configuration := fun _ _ => r; configure := configure client |}.

(** ** Boolean forms of the conditions on the two states *)

Definition compared (k : string) : bool := negb (String.eqb k "bindpass").

(** The first compared key of [items] that [current_state] lacks. *)
Fixpoint first_missing (items : kwdict) (current_state : pydict)
  : option string :=
  match items with
  | [] => None
  | (k, _) :: items' =>
      if compared k then
        match current_state !! k with
        | Some _ => first_missing items' current_state
        | None => Some k
        end
      else first_missing items' current_state
  end.

(** Some compared key of [items] holds a value that differs from the one
    [current_state] holds. *)
Definition differs (items : kwdict) (current_state : pydict) : bool :=
  existsb (fun kv => compared kv.1 &&
                     match current_state !! kv.1 with
                     | Some c => py_ne kv.2 c
                     | None => false
                     end) items.

(** The state and outcome of the body once the desired state is built and
    the read has given [current_state]. *)
Definition after_read {W} (client : hvac_client W) (module : AnsibleModule)
    (w : W) (ds : kwdict) (current_state : pydict)
  : state W * outcome result :=
  let rd := read_configuration_call (get (params module) "mount_point") in
  match compare_loop ds current_state false with
  | inl failure => ({| remote := w; calls := [rd] |}, Returns failure)
  | inr changed =>
      if changed && negb (check_mode module) then
        ({| remote := (configure client ds w).1;
            calls := [rd; configure_call ds] |},
         match (configure client ds w).2 with
         | Returns _ => Returns (Done changed current_state ds)
         | Raises e => Raises e
         end)
      else
        ({| remote := w; calls := [rd] |},
         Returns (Done changed current_state ds))
  end.

(** * Properties *)

(** ** The body, case by case *)

Section Body.
Context {W : Type} (client : hvac_client W) (module : AnsibleModule) (w : W).

Let mount_point := get (params module) "mount_point".

Lemma run_build_raises e :
  desired_state (params module) = Raises e ->
  run client module w = ({| remote := w; calls := [] |}, Raises e).
Proof.
  intros H. unfold run, hashivault_auth_ldap, bind, lift. now rewrite H.
Qed.

Lemma run_read_raises ds e :
  desired_state (params module) = Returns ds ->
  read_configuration client mount_point w = Raises e ->
  e <> InvalidPath ->
  run client module w =
    ({| remote := w; calls := [read_configuration_call mount_point] |},
     Raises e).
Proof.
  intros Hd Hr He. subst mount_point.
  unfold run, hashivault_auth_ldap, bind, lift, try_except_InvalidPath,
    do_read_configuration.
  rewrite Hd. simpl. rewrite Hr. destruct e; congruence.
Qed.

Lemma run_after_read ds cur :
  desired_state (params module) = Returns ds ->
  current_state_of (read_configuration client mount_point w) = Some cur ->
  run client module w = after_read client module w ds cur.
Proof.
  intros Hd Hr. subst mount_point.
  unfold run, after_read, hashivault_auth_ldap, bind, lift,
    try_except_InvalidPath, do_read_configuration, do_configure, ret.
  rewrite Hd. simpl.
  destruct (read_configuration client _ w) as [d|e]; simpl in *.
  - injection Hr as <-.
    destruct (compare_loop ds d false) as [f|ch]; [reflexivity|].
    destruct (ch && negb (check_mode module)); [|reflexivity].
    simpl. destruct (configure client ds w) as [w' [[]|e]]; reflexivity.
  - destruct e; try discriminate. injection Hr as <-.
    unfold ret.
    destruct (compare_loop ds ∅ false) as [f|ch]; [reflexivity|].
    destruct (ch && negb (check_mode module)); [|reflexivity].
    simpl. destruct (configure client ds w) as [w' [[]|e]]; reflexivity.
Qed.
End Body.

(** ** The comparison loop *)

Lemma compare_loop_spec items cur changed :
  compare_loop items cur changed =
  match first_missing items cur with
  | Some k => inl (Failed ("HVAC unsupported parameter: " ++ repr k))
  | None => inr (changed || differs items cur)
  end.
Proof.
  revert changed. induction items as [|[k v] items IH]; intros changed; simpl.
  - now rewrite orb_false_r.
  - unfold compared. destruct (negb (String.eqb k "bindpass")); simpl.
    + destruct (cur !! k) as [c|]; [|reflexivity].
      rewrite IH. destruct (first_missing items cur); [reflexivity|].
      destruct (py_ne v c), changed; reflexivity.
    + apply IH.
Qed.

Lemma compared_true k : compared k = true <-> k <> "bindpass".
Proof.
  unfold compared. rewrite negb_true_iff.
  destruct (String.eqb_spec k "bindpass"); split; congruence.
Qed.

Lemma first_missing_None items (cur : pydict) :
  first_missing items cur = None <->
  (forall k v, (k, v) ∈ items -> k <> "bindpass" -> is_Some (cur !! k)).
Proof.
  induction items as [|[k v] items IH]; simpl.
  - split; [|reflexivity]. intros _ k v H. inversion H.
  - destruct (compared k) eqn:Hc.
    + destruct (cur !! k) as [c|] eqn:Hk.
      * rewrite IH. split.
        -- intros H k' v' Hin Hne. apply elem_of_cons in Hin as [[= -> ->]|Hin];
             [rewrite Hk; eauto | eauto].
        -- intros H k' v' Hin. apply (H k' v'). now right.
      * split; [discriminate|]. intros H.
        destruct (H k v) as [c Hcur]; [left | now apply compared_true |].
        congruence.
    + rewrite IH. split.
      * intros H k' v' Hin Hne. apply elem_of_cons in Hin as [[= -> ->]|Hin];
          [|eauto]. apply compared_true in Hne. congruence.
      * intros H k' v' Hin. apply (H k' v'). now right.
Qed.

Lemma first_missing_Some items (cur : pydict) k :
  first_missing items cur = Some k ->
  k ∈ keys items /\ k <> "bindpass" /\ cur !! k = None.
Proof.
  unfold keys. induction items as [|[k' v] items IH]; simpl; [discriminate|].
  destruct (compared k') eqn:Hc.
  - destruct (cur !! k') eqn:Hk.
    + intros H. destruct (IH H) as (? & ? & ?). split; [now right|easy].
    + intros [= ->]. split; [left|]. split; [now apply compared_true|easy].
  - intros H. destruct (IH H) as (? & ? & ?). split; [now right|easy].
Qed.

Lemma differs_true items (cur : pydict) :
  differs items cur = true <->
  exists k v c, (k, v) ∈ items /\ k <> "bindpass" /\ cur !! k = Some c /\
                py_ne v c = true.
Proof.
  unfold differs. rewrite existsb_exists. split.
  - intros [[k v] [Hin H]]. simpl in H. apply andb_true_iff in H as [Hc H].
    destruct (cur !! k) as [c|] eqn:Hk; [|discriminate].
    exists k, v, c. repeat split; try easy.
    + now apply list_elem_of_In.
    + now apply compared_true.
  - intros (k & v & c & Hin & Hne & Hk & Hd). exists (k, v). split.
    + now apply list_elem_of_In.
    + simpl. rewrite Hk, Hd. apply compared_true in Hne. now rewrite Hne.
Qed.

(** Every compared key of [items] is held by [current_state] with an equal
    value. *)
Definition agrees (items : kwdict) (current_state : pydict) : bool :=
  forallb (fun kv => negb (compared kv.1) ||
                     match current_state !! kv.1 with
                     | Some c => py_eq kv.2 c
                     | None => false
                     end) items.

Lemma agrees_true items (cur : pydict) :
  agrees items cur = true <->
  (forall k v, (k, v) ∈ items -> k <> "bindpass" ->
     exists c, cur !! k = Some c /\ py_eq v c = true).
Proof.
  unfold agrees. rewrite forallb_forall. split.
  - intros H k v Hin Hne. apply list_elem_of_In in Hin.
    specialize (H _ Hin). simpl in H. apply compared_true in Hne.
    rewrite Hne in H. simpl in H. destruct (cur !! k) as [c|]; [eauto|easy].
  - intros H [k v] Hin. simpl. destruct (compared k) eqn:Hc; [|reflexivity].
    simpl. apply list_elem_of_In in Hin. apply compared_true in Hc.
    destruct (H k v Hin Hc) as (c & -> & ->). reflexivity.
Qed.

Lemma agrees_no_difference items (cur : pydict) :
  agrees items cur = true ->
  first_missing items cur = None /\ differs items cur = false.
Proof.
  intros H. rewrite agrees_true in H. split.
  - apply first_missing_None. intros k v Hin Hne.
    destruct (H k v Hin Hne) as (c & -> & _). eauto.
  - destruct (differs items cur) eqn:Hd; [|reflexivity].
    apply differs_true in Hd as (k & v & c & Hin & Hne & Hk & Hd).
    destruct (H k v Hin Hne) as (c' & Hk' & He). unfold py_ne in Hd.
    rewrite Hk in Hk'. injection Hk' as <-. rewrite He in Hd. discriminate.
Qed.

(** ** C1 *)

(** C1: when every non-secret key of the desired state is held by the
    current state with an equal value, the function returns
    [changed = False] with the before/after pair, the call log holds no
    [configure] call and the remote world is the one it started from,
    whatever [check_mode] is. *)
Theorem C1_equal_states_unchanged {W} (client : hvac_client W)
    (module : AnsibleModule) (w : W) (ds : kwdict) (cur : pydict) :
  desired_state (params module) = Returns ds ->
  current_state_of
    (read_configuration client (get (params module) "mount_point") w)
    = Some cur ->
  (forall k v, (k, v) ∈ ds -> k <> "bindpass" ->
     exists c, cur !! k = Some c /\ py_eq v c = true) ->
  (run client module w).2 = Returns (Done false cur ds) /\
  writes (calls (run client module w).1) = [] /\
  remote (run client module w).1 = w.
Proof.
  intros Hd Hr Heq. rewrite (run_after_read _ _ _ _ _ Hd Hr).
  apply agrees_true, agrees_no_difference in Heq as [Hm Hf].
  unfold after_read. rewrite compare_loop_spec, Hm, Hf. simpl. auto.
Qed.

(** ** C2 *)

(** What the display puts under ["bindpass"] once the absent secret is
    dropped. *)
Lemma desired_state_bindpass (p : pydict) ds :
  desired_state p = Returns ds ->
  getitem ds "bindpass" =
    if is_None (get p "bindpass") then None else Some (get p "bindpass").
Proof.
  unfold desired_state, desired_state_display.
  destruct (py_lower (get p "groupattr")) as [g|e]; [|discriminate].
  destruct (py_lower (get p "userattr")) as [u|e]; [|discriminate].
  intros [= <-]. unfold drop_absent_bindpass. simpl.
  destruct (get p "bindpass"); reflexivity.
Qed.

(** C2: when the current state holds every non-secret key of the desired
    state and some non-secret key holds a different value, [changed] is
    [True].  In check mode the function returns it and writes nothing.  With
    check mode off the call log holds exactly one [configure] call, whose
    keyword arguments are the whole desired state, and the function returns
    [changed = True] once that call returns (an exception of the call leaves
    the function).  The desired state holds ["bindpass"] exactly when the
    parameter is not [None]. *)
Theorem C2_differing_state_written_once {W} (client : hvac_client W)
    (module : AnsibleModule) (w : W) (ds : kwdict) (cur : pydict)
    (k : string) (v c : value) :
  desired_state (params module) = Returns ds ->
  current_state_of
    (read_configuration client (get (params module) "mount_point") w)
    = Some cur ->
  (forall k' v', (k', v') ∈ ds -> k' <> "bindpass" -> is_Some (cur !! k')) ->
  (k, v) ∈ ds -> k <> "bindpass" -> cur !! k = Some c -> py_ne v c = true ->
  (if check_mode module then
     (run client module w).2 = Returns (Done true cur ds) /\
     writes (calls (run client module w).1) = []
   else
     writes (calls (run client module w).1) = [ds] /\
     remote (run client module w).1 = (configure client ds w).1 /\
     (run client module w).2 =
       match (configure client ds w).2 with
       | Returns _ => Returns (Done true cur ds)
       | Raises e => Raises e
       end) /\
  getitem ds "bindpass" =
    (if is_None (get (params module) "bindpass") then None
     else Some (get (params module) "bindpass")).
Proof.
  intros Hd Hr Hall Hin Hk Hc Hne. split; [|now apply desired_state_bindpass].
  rewrite (run_after_read _ _ _ _ _ Hd Hr).
  apply first_missing_None in Hall.
  assert (Hf : differs ds cur = true) by (apply differs_true; eauto 10).
  unfold after_read. rewrite compare_loop_spec, Hall, Hf. simpl.
  destruct (check_mode module); simpl; auto.
Qed.

(** ** C3 *)

(** C3: when the current state lacks a non-secret key of the desired state,
    the function returns the failure result whose message names a key the
    current state lacks (the first one in the order of the desired state);
    the call log holds no [configure] call and the remote world is
    untouched. *)
Theorem C3_missing_key_fails_without_write {W} (client : hvac_client W)
    (module : AnsibleModule) (w : W) (ds : kwdict) (cur : pydict)
    (k : string) (v : value) :
  desired_state (params module) = Returns ds ->
  current_state_of
    (read_configuration client (get (params module) "mount_point") w)
    = Some cur ->
  (k, v) ∈ ds -> k <> "bindpass" -> cur !! k = None ->
  exists k',
    k' ∈ keys ds /\ k' <> "bindpass" /\ cur !! k' = None /\
    first_missing ds cur = Some k' /\
    (run client module w).2
      = Returns (Failed ("HVAC unsupported parameter: " ++ repr k')) /\
    writes (calls (run client module w).1) = [] /\
    remote (run client module w).1 = w.
Proof.
  intros Hd Hr Hin Hk Hc. rewrite (run_after_read _ _ _ _ _ Hd Hr).
  destruct (first_missing ds cur) as [k'|] eqn:Hm.
  - exists k'. destruct (first_missing_Some _ _ _ Hm) as (? & ? & ?).
    unfold after_read. rewrite compare_loop_spec, Hm. simpl. auto 10.
  - exfalso. rewrite first_missing_None in Hm.
    destruct (Hm k v Hin Hk) as [c Hc']. congruence.
Qed.

(** ** Shape of the run *)

Lemma run_cases {W} (client : hvac_client W) (module : AnsibleModule) (w : W) :
  let mp := get (params module) "mount_point" in
  (exists e, desired_state (params module) = Raises e /\
     run client module w = ({| remote := w; calls := [] |}, Raises e)) \/
  (exists ds e, desired_state (params module) = Returns ds /\
     read_configuration client mp w = Raises e /\ e <> InvalidPath /\
     run client module w =
       ({| remote := w; calls := [read_configuration_call mp] |}, Raises e)) \/
  (exists ds cur, desired_state (params module) = Returns ds /\
     current_state_of (read_configuration client mp w) = Some cur /\
     run client module w = after_read client module w ds cur).
Proof.
  intros mp. destruct (desired_state (params module)) as [ds|e] eqn:Hd.
  - right.
    destruct (current_state_of (read_configuration client mp w))
      as [cur|] eqn:Hc.
    + right. exists ds, cur. eauto using run_after_read.
    + left. destruct (read_configuration client mp w) as [d|e] eqn:Hr;
        [discriminate|].
      exists ds, e. repeat split; try easy.
      * intros ->. discriminate.
      * apply (run_read_raises _ _ _ ds); try easy. intros ->. discriminate.
  - left. exists e. eauto using run_build_raises.
Qed.

(** Every [configure] call of a run carries the desired state. *)
Lemma run_writes {W} (client : hvac_client W) (module : AnsibleModule) (w : W)
    (kw : kwdict) :
  kw ∈ writes (calls (run client module w).1) ->
  desired_state (params module) = Returns kw /\
  check_mode module = false.
Proof.
  destruct (run_cases client module w)
    as [(e & _ & ->)|[(ds & e & _ & _ & _ & ->)|(ds & cur & Hd & _ & ->)]];
    simpl; try (intros H; now inversion H).
  unfold after_read. destruct (compare_loop ds cur false) as [f|ch]; simpl;
    try (intros H; now inversion H).
  destruct ch, (check_mode module); simpl; intros H;
    repeat (apply elem_of_cons in H as [->|H]); auto; now inversion H.
Qed.

(** A returned before/after pair is the current and the desired state. *)
Lemma run_done {W} (client : hvac_client W) (module : AnsibleModule) (w : W)
    changed before after :
  (run client module w).2 = Returns (Done changed before after) ->
  desired_state (params module) = Returns after /\
  current_state_of
    (read_configuration client (get (params module) "mount_point") w)
    = Some before.
Proof.
  destruct (run_cases client module w)
    as [(e & _ & ->)|[(ds & e & _ & _ & _ & ->)|(ds & cur & Hd & Hc & ->)]];
    simpl; try discriminate.
  unfold after_read.
  destruct (compare_loop ds cur false) as [f|ch] eqn:Hl; simpl.
  - rewrite compare_loop_spec in Hl.
    destruct (first_missing ds cur); intros; simplify_eq.
  - destruct (ch && negb (check_mode module)); simpl.
    + destruct (configure client ds w).2; intros; simplify_eq. auto.
    + intros; simplify_eq. auto.
Qed.

Lemma getitem_None (d : kwdict) k : getitem d k = None <-> k ∉ keys d.
Proof.
  unfold keys. induction d as [|[k' v] d IH]; simpl.
  - split; [|reflexivity]. intros _ H. inversion H.
  - rewrite not_elem_of_cons.
    destruct (String.eqb_spec k' k) as [->|Hne].
    + split; [discriminate | intros [H _]; congruence].
    + rewrite IH. split; [intros H; split; [congruence|exact H] |].
      intros [_ H]. exact H.
Qed.

(** ** C4 *)

Lemma compare_loop_without_bindpass items (cur : pydict) changed :
  compare_loop items cur changed =
  compare_loop (delitem items "bindpass") (delete "bindpass" cur) changed.
Proof.
  revert changed. induction items as [|[k v] items IH]; intros changed; simpl;
    [reflexivity|].
  destruct (String.eqb_spec k "bindpass") as [->|Hne]; simpl; [apply IH|].
  apply String.eqb_neq in Hne as Hb. rewrite Hb. simpl.
  rewrite lookup_delete_ne by congruence.
  destruct (cur !! k); [apply IH|reflexivity].
Qed.

(** C4: the outcome of the comparison loop is that of the loop run on the
    two states with ["bindpass"] removed from both, so no value held under
    ["bindpass"] takes part in computing [changed]; and when the parameter
    [bindpass] is [None] the built desired state has no key ["bindpass"],
    and neither have the keyword arguments of any [configure] call nor the
    ["after"] mapping of a returned diff. *)
Theorem C4_secret_not_compared_absent_when_None {W} (client : hvac_client W)
    (module : AnsibleModule) (w : W) :
  (forall items (cur : pydict) changed,
     compare_loop items cur changed =
     compare_loop (delitem items "bindpass") (delete "bindpass" cur) changed)
  /\
  (get (params module) "bindpass" = VNone ->
   (forall ds, desired_state (params module) = Returns ds ->
      "bindpass" ∉ keys ds) /\
   (forall kw, kw ∈ writes (calls (run client module w).1) ->
      "bindpass" ∉ keys kw) /\
   (forall changed before after,
      (run client module w).2 = Returns (Done changed before after) ->
      "bindpass" ∉ keys after)).
Proof.
  split; [apply compare_loop_without_bindpass|]. intros Hn.
  assert (Hds : forall ds, desired_state (params module) = Returns ds ->
                  "bindpass" ∉ keys ds).
  { intros ds Hd. apply getitem_None.
    rewrite (desired_state_bindpass _ _ Hd), Hn. reflexivity. }
  split; [exact Hds|]. split.
  - intros kw Hin. apply Hds. now apply run_writes in Hin as [? _].
  - intros ch b a Hr. apply Hds. now apply run_done in Hr as [? _].
Qed.

(** ** C5 *)

(** The module with its check-mode flag set to [b]. *)
Definition with_check_mode (module : AnsibleModule) (b : bool)
  : AnsibleModule :=
  {| params := params module; check_mode := b |}.

(** C5: in check mode the call log holds no [configure] call and the remote
    world is untouched; the outcome (the [changed] flag with the before/after
    pair, a failure result, or an exception of the build or of the read) is
    the one of the applying run, unless the applying run was stopped by an
    exception of its [configure] call, in which case check mode returns
    [changed = True] with the same before/after pair. *)
Theorem C5_check_mode_never_writes {W} (client : hvac_client W)
    (module : AnsibleModule) (w : W) :
  let dry := run client (with_check_mode module true) w in
  let wet := run client (with_check_mode module false) w in
  writes (calls dry.1) = [] /\
  remote dry.1 = w /\
  (dry.2 = wet.2 \/
   exists ds cur e,
     dry.2 = Returns (Done true cur ds) /\
     writes (calls wet.1) = [ds] /\
     (configure client ds w).2 = Raises e /\
     wet.2 = Raises e).
Proof.
  intros dry wet. subst dry wet.
  destruct (run_cases client (with_check_mode module true) w)
    as [(e & Hd & Hrun)|[(ds & e & Hd & Hr & He & Hrun)
                        |(ds & cur & Hd & Hr & Hrun)]];
    simpl in Hd; rewrite Hrun.
  - rewrite (run_build_raises client (with_check_mode module false) w e Hd).
    simpl. auto.
  - rewrite (run_read_raises client (with_check_mode module false) w ds e
               Hd Hr He).
    simpl. auto.
  - rewrite (run_after_read client (with_check_mode module false) w ds cur
               Hd Hr).
    unfold after_read. simpl.
    destruct (compare_loop ds cur false) as [f|[|]]; simpl; auto.
    destruct (configure client ds w) as [w' [[]|e]] eqn:Hc; simpl; auto.
    do 2 split; [reflexivity|]. right. exists ds, cur, e.
    rewrite Hc. auto.
Qed.

(** ** C6 *)

(** C6: when the read raises [InvalidPath] the run is the run against a
    client that differs only in answering the read with the empty mapping;
    [InvalidPath] is not the outcome of the function. *)
Theorem C6_invalid_path_is_empty_state {W} (client : hvac_client W)
    (module : AnsibleModule) (w : W) :
  read_configuration client (get (params module) "mount_point") w
    = Raises InvalidPath ->
  run client module w = run (answering client (Returns ∅)) module w /\
  current_state_of
    (read_configuration client (get (params module) "mount_point") w)
    = Some ∅ /\
  (run client module w).2 <> Raises InvalidPath.
Proof.
  intros Hr.
  assert (Hc : current_state_of
                 (read_configuration client
                    (get (params module) "mount_point") w) = Some ∅)
    by now rewrite Hr.
  destruct (desired_state (params module)) as [ds|e] eqn:Hd.
  - rewrite (run_after_read client module w ds ∅ Hd Hc).
    rewrite (run_after_read (answering client (Returns ∅)) module w ds ∅ Hd
               eq_refl).
    split; [reflexivity|]. split; [exact Hc|].
    unfold after_read. rewrite compare_loop_spec.
    destruct (first_missing ds ∅) as [k|] eqn:Hm; [simpl; discriminate|].
    exfalso. revert Hd Hm. unfold desired_state, desired_state_display.
    destruct (py_lower (get (params module) "groupattr")); [|discriminate].
    destruct (py_lower (get (params module) "userattr")); [|discriminate].
    unfold drop_absent_bindpass. simpl.
    destruct (is_None _); intros [= <-]; discriminate.
  - rewrite !(run_build_raises _ module w e Hd). split; [reflexivity|].
    split; [exact Hc|]. simpl. intros [= ->]. revert Hd.
    unfold desired_state, desired_state_display, py_lower.
    destruct (get (params module) "groupattr");
      destruct (get (params module) "userattr"); discriminate.
Qed.

(** ** C9 *)

(** The display opens with the key ["anonymous_group_search"]. *)
Lemma desired_state_head (p : pydict) ds :
  desired_state p = Returns ds ->
  exists rest,
    ds = ("anonymous_group_search", get p "anonymous_group_search") :: rest.
Proof.
  unfold desired_state, desired_state_display.
  destruct (py_lower (get p "groupattr")); [|discriminate].
  destruct (py_lower (get p "userattr")); [|discriminate].
  unfold drop_absent_bindpass. simpl.
  destruct (is_None _); intros [= <-]; eauto.
Qed.

(** C9: when the read raises [InvalidPath] (the method was never configured
    under the mount) and the desired state is built, the function returns the
    failure naming the first compared key, ["anonymous_group_search"]; no
    [configure] call is made and the remote world is untouched, so the run
    never yields a diff and never configures the mount. *)
Theorem C9_unconfigured_mount_always_fails {W} (client : hvac_client W)
    (module : AnsibleModule) (w : W) (ds : kwdict) :
  desired_state (params module) = Returns ds ->
  read_configuration client (get (params module) "mount_point") w
    = Raises InvalidPath ->
  first_missing ds ∅ = Some "anonymous_group_search" /\
  (run client module w).2 =
    Returns (Failed "HVAC unsupported parameter: 'anonymous_group_search'") /\
  writes (calls (run client module w).1) = [] /\
  remote (run client module w).1 = w.
Proof.
  intros Hd Hr.
  assert (Hc : current_state_of
                 (read_configuration client
                    (get (params module) "mount_point") w) = Some ∅)
    by now rewrite Hr.
  rewrite (run_after_read client module w ds ∅ Hd Hc).
  destruct (desired_state_head _ _ Hd) as [rest ->].
  unfold after_read. rewrite compare_loop_spec. simpl. auto.
Qed.

(** ** Dependence of the run on the module *)

Lemma run_ext {W} (client : hvac_client W) (m1 m2 : AnsibleModule) (w : W) :
  desired_state (params m1) = desired_state (params m2) ->
  get (params m1) "mount_point" = get (params m2) "mount_point" ->
  check_mode m1 = check_mode m2 ->
  run client m1 w = run client m2 w.
Proof.
  intros Hd Hm Hc. unfold run, hashivault_auth_ldap. now rewrite Hd, Hm, Hc.
Qed.

Lemma get_insert_eq (p : pydict) k v : get (<[k := v]> p) k = v.
Proof. unfold get. now rewrite lookup_insert_eq. Qed.

Lemma get_insert_ne (p : pydict) k k' v :
  k <> k' -> get (<[k := v]> p) k' = get p k'.
Proof. intros H. unfold get. now rewrite lookup_insert_ne. Qed.

(** The keys of the dictionary display, in its order. *)
Definition display_keys : list string :=
  Eval vm_compute in
    match desired_state_display default_params with
    | Returns d => keys d
    | Raises _ => []
    end.

Lemma desired_state_display_keys (p : pydict) d :
  desired_state_display p = Returns d -> keys d = display_keys.
Proof.
  unfold desired_state_display.
  destruct (py_lower (get p "groupattr")); [|discriminate].
  destruct (py_lower (get p "userattr")); [|discriminate].
  now intros [= <-].
Qed.

Lemma keys_delitem (d : kwdict) k k' : k' ∈ keys (delitem d k) -> k' ∈ keys d.
Proof.
  unfold keys. induction d as [|[k0 v] d IH]; simpl; [easy|].
  destruct (String.eqb k0 k); simpl; rewrite ?elem_of_cons; intuition.
Qed.

Lemma desired_state_keys (p : pydict) ds k :
  desired_state p = Returns ds -> k ∈ keys ds -> k ∈ display_keys.
Proof.
  unfold desired_state.
  destruct (desired_state_display p) as [d|e] eqn:Hd; [|discriminate].
  intros [= <-]. rewrite <- (desired_state_display_keys _ _ Hd).
  unfold drop_absent_bindpass.
  destruct (getitem d "bindpass") as [v|]; [|easy].
  destruct (is_None v); [apply keys_delitem | easy].
Qed.

(** ** Setting one parameter *)

(** The module whose parameter [k] is the string [s]. *)
Definition with_param (p : pydict) (check : bool) (k s : string)
  : AnsibleModule :=
  {| params := <[k := VStr s]> p; check_mode := check |}.

(** ** C10 *)

Lemma desired_state_mount_point (p : pydict) m :
  desired_state (<["mount_point" := m]> p) = desired_state p.
Proof.
  unfold desired_state, desired_state_display.
  now rewrite !get_insert_ne by discriminate.
Qed.

Lemma mount_point_not_display_key : "mount_point" ∉ display_keys.
Proof.
  intros H. apply list_elem_of_In in H. vm_compute in H. intuition discriminate.
Qed.

(** The calls of a run: one read at the mount of the parameters, then at
    most one [configure] of the desired state. *)
Lemma run_calls {W} (client : hvac_client W) (module : AnsibleModule) (w : W)
    (c : call) :
  c ∈ calls (run client module w).1 ->
  c = read_configuration_call (get (params module) "mount_point") \/
  exists ds, c = configure_call ds /\
             desired_state (params module) = Returns ds.
Proof.
  destruct (run_cases client module w)
    as [(e & _ & ->)|[(ds & e & _ & _ & _ & ->)|(ds & cur & Hd & _ & ->)]];
    simpl.
  - intros H. inversion H.
  - intros H. apply list_elem_of_singleton in H. auto.
  - unfold after_read. destruct (compare_loop ds cur false) as [f|ch]; simpl.
    + intros H. apply list_elem_of_singleton in H. auto.
    + destruct (ch && negb (check_mode module)); simpl; intros H;
        repeat (apply elem_of_cons in H as [->|H]); eauto; inversion H.
Qed.

(** The module with its parameter [mount_point] set to [m]. *)
Definition with_mount_point (module : AnsibleModule) (m : value)
  : AnsibleModule :=
  {| params := <["mount_point" := m]> (params module);
     check_mode := check_mode module |}.

(** C10: with the parameter [mount_point] set to [m], the desired state is
    the one built without it and has no key ["mount_point"]; the first call
    of the run is the read at [m], and the state that is compared is the
    answer of that read, so [m] decides what is read and compared; the only
    call that may follow is a [configure] call whose keyword arguments are
    the desired state, which therefore addresses the default mount of the
    client library whatever [m] is. *)
Theorem C10_mount_point_reaches_only_the_read {W} (client : hvac_client W)
    (module : AnsibleModule) (w : W) (m DEFAULT_MOUNT_POINT : value)
    (ds : kwdict) :
  desired_state (params module) = Returns ds ->
  desired_state (params (with_mount_point module m)) = Returns ds /\
  ("mount_point" ∉ keys ds) /\
  configure_mount DEFAULT_MOUNT_POINT ds = DEFAULT_MOUNT_POINT /\
  calls (run client (with_mount_point module m) w).1 =
    read_configuration_call m ::
    match current_state_of (read_configuration client m w) with
    | Some cur =>
        match compare_loop ds cur false with
        | inr true => if check_mode module then [] else [configure_call ds]
        | _ => []
        end
    | None => []
    end /\
  (forall cur,
     current_state_of (read_configuration client m w) = Some cur ->
     run client (with_mount_point module m) w
       = after_read client (with_mount_point module m) w ds cur).
Proof.
  intros Hd.
  assert (Hd' : desired_state (params (with_mount_point module m))
                = Returns ds)
    by (simpl; now rewrite desired_state_mount_point).
  assert (Hk : "mount_point" ∉ keys ds).
  { intros Hin. apply mount_point_not_display_key.
    eapply desired_state_keys; eauto. }
  assert (Hm : get (params (with_mount_point module m)) "mount_point" = m)
    by (simpl; apply get_insert_eq).
  split; [exact Hd'|]. split; [exact Hk|]. split.
  { unfold configure_mount. apply getitem_None in Hk. now rewrite Hk. }
  destruct (current_state_of (read_configuration client m w)) as [cur|]
    eqn:Hc.
  - assert (Hrun : run client (with_mount_point module m) w
                   = after_read client (with_mount_point module m) w ds cur)
      by (apply run_after_read; [exact Hd' | now rewrite Hm]).
    split; [|intros cur' [= <-]; exact Hrun].
    rewrite Hrun. unfold after_read. rewrite Hm.
    destruct (compare_loop ds cur false) as [f|[|]]; simpl; try reflexivity.
    destruct (check_mode module); reflexivity.
  - split; [|discriminate].
    destruct (read_configuration client m w) as [d|e] eqn:Hr;
      [discriminate|].
    rewrite (run_read_raises client (with_mount_point module m) w ds e Hd');
      [now rewrite Hm | now rewrite Hm | intros ->; discriminate].
Qed.

(** ** C7 *)

(** Every key of the desired state built from [p] is one of [names]. *)
Definition keys_declared (names : list string) (p : pydict) : Prop :=
  forall ds k, desired_state p = Returns ds -> k ∈ keys ds -> k ∈ names.

(** The names [main] declares. *)
Definition main_names : list string := main_fields.*1.

Lemma foldl_insert_keeps (k : string) (l : list (string * FieldSpec))
    (base : gmap string FieldSpec) :
  is_Some (base !! k) ->
  is_Some (foldl (fun a kv => <[kv.1 := kv.2]> a) base l !! k).
Proof.
  revert base. induction l as [|[k' f] l IH]; intros base Hb; simpl;
    [exact Hb|].
  apply IH. destruct (decide (k' = k)) as [->|Hne].
  - rewrite lookup_insert_eq. eauto.
  - now rewrite lookup_insert_ne.
Qed.

Lemma argspec_declares (base : gmap string FieldSpec) k :
  k ∈ main_names -> is_Some (argspec base !! k).
Proof.
  unfold argspec, main_names. revert base.
  induction main_fields as [|[k' f] l IH]; intros base Hin; simpl.
  - inversion Hin.
  - simpl in Hin. apply elem_of_cons in Hin as [->|Hin].
    + apply foldl_insert_keeps. rewrite lookup_insert_eq. eauto.
    + now apply IH.
Qed.

Lemma display_keys_declared k :
  k ∈ display_keys ->
  k = "url" \/ k = "use_pre111_group_cn_behavior" \/ k ∈ main_names.
Proof.
  intros H.
  assert (Hall : forallb (fun k => String.eqb k "url" ||
                            String.eqb k "use_pre111_group_cn_behavior" ||
                            existsb (String.eqb k) main_names)
                   display_keys = true) by (vm_compute; reflexivity).
  rewrite forallb_forall in Hall. apply list_elem_of_In in H.
  specialize (Hall _ H). rewrite !orb_true_iff, !String.eqb_eq in Hall.
  destruct Hall as [[->| ->]|He]; auto. right. right.
  apply existsb_exists in He as (k' & Hin & Heq).
  apply String.eqb_eq in Heq as ->. now apply list_elem_of_In.
Qed.

Lemma desired_state_url (p : pydict) ds :
  desired_state p = Returns ds -> getitem ds "url" = Some (get p "ldap_url").
Proof.
  unfold desired_state, desired_state_display.
  destruct (py_lower (get p "groupattr")) as [g|e]; [|discriminate].
  destruct (py_lower (get p "userattr")) as [u|e]; [|discriminate].
  intros [= <-]. unfold drop_absent_bindpass. simpl.
  destruct (is_None (get p "bindpass")); reflexivity.
Qed.

(** C7, amended: every key of the built desired state other than ["url"] and
    ["use_pre111_group_cn_behavior"] is a name declared by [main], hence a
    key of the argument schema whatever the base schema is; the key ["url"]
    holds the value of the declared field ["ldap_url"]. *)
Theorem C7_keys_declared_but_client_names (base : gmap string FieldSpec)
    (p : pydict) (ds : kwdict) (k : string) :
  desired_state p = Returns ds ->
  k ∈ keys ds ->
  k <> "url" -> k <> "use_pre111_group_cn_behavior" ->
  k ∈ main_names /\
  is_Some (argspec base !! k) /\
  getitem ds "url" = Some (get p "ldap_url") /\
  is_Some (argspec base !! "ldap_url").
Proof.
  intros Hd Hk Hu Hp.
  assert (Hm : k ∈ main_names).
  { destruct (display_keys_declared k) as [?|[?|?]]; try congruence.
    eapply desired_state_keys; eauto. }
  split; [exact Hm|]. split; [now apply argspec_declares|].
  split; [now apply desired_state_url|].
  apply argspec_declares. apply list_elem_of_In. vm_compute. tauto.
Qed.

(** * Further properties of the module *)

(** ** Python equality *)

Section value_nested_ind.
Variable P : value -> Prop.
Hypothesis HNone : P VNone.
Hypothesis HBool : forall b, P (VBool b).
Hypothesis HInt : forall n, P (VInt n).
Hypothesis HStr : forall s, P (VStr s).
Hypothesis HList : forall l, Forall P l -> P (VList l).

Fixpoint value_nested_ind (v : value) : P v :=
  match v with
  | VNone => HNone
  | VBool b => HBool b
  | VInt n => HInt n
  | VStr s => HStr s
  | VList l =>
      HList l
        ((fix all (l : list value) : Forall P l :=
            match l with
            | [] => @List.Forall_nil value P
            | x :: l' =>
                @List.Forall_cons value P x l' (value_nested_ind x) (all l')
            end) l)
  end.
End value_nested_ind.

(** Element-wise comparison of two lists, as [py_eq] does it on [VList]. *)
Fixpoint py_eq_elements (xs ys : list value) : bool :=
  match xs, ys with
  | [], [] => true
  | x :: xs', y :: ys' => py_eq x y && py_eq_elements xs' ys'
  | _, _ => false
  end.

Lemma py_eq_VList l l' : py_eq (VList l) (VList l') = py_eq_elements l l'.
Proof.
  revert l'. induction l as [|x l IH]; intros [|y l']; reflexivity.
Qed.

Lemma py_eq_refl v : py_eq v v = true.
Proof.
  induction v as [|b|n|s|l IH] using value_nested_ind; simpl.
  - reflexivity.
  - now destruct b.
  - apply Z.eqb_refl.
  - apply String.eqb_refl.
  - change (py_eq (VList l) (VList l) = true). rewrite py_eq_VList.
    induction IH as [|x l Hx _ IHl]; simpl; [reflexivity|].
    now rewrite Hx, IHl.
Qed.

Lemma py_eq_sym v w : py_eq v w = py_eq w v.
Proof.
  revert w. induction v as [|b|n|s|l IH] using value_nested_ind;
    intros [|b'|n'|s'|l']; try reflexivity.
  - simpl. now destruct b, b'.
  - simpl. apply Z.eqb_sym.
  - simpl. apply Z.eqb_sym.
  - simpl. apply Z.eqb_sym.
  - simpl. apply String.eqb_sym.
  - rewrite !py_eq_VList. revert l'.
    induction IH as [|x l Hx _ IHl]; intros [|y l']; simpl; try reflexivity.
    now rewrite Hx, IHl.
Qed.

(** X1: the comparison [==] used by the loop is reflexive and symmetric on
    every value, lists included, and identifies a boolean with the integer
    [0] or [1] it stands for: a desired [False] against a stored [0] is no
    difference, while no string equals an integer. *)
Theorem X1_py_eq_reflexive_symmetric (v w : value) (b : bool) (s : string)
    (n : Z) :
  py_eq v v = true /\
  py_eq v w = py_eq w v /\
  py_ne (VBool b) (VInt (int_of_bool b)) = false /\
  py_ne (VStr s) (VInt n) = true.
Proof.
  split; [apply py_eq_refl|]. split; [apply py_eq_sym|].
  split; [|reflexivity]. unfold py_ne. simpl. now rewrite Z.eqb_refl.
Qed.

(** ** Shape of the desired state *)

Lemma getitem_elem (d : kwdict) k v : getitem d k = Some v -> (k, v) ∈ d.
Proof.
  induction d as [|[k' v'] d IH]; simpl; [discriminate|].
  destruct (String.eqb_spec k' k) as [->|Hne].
  - intros [= ->]. left.
  - intros H. right. now apply IH.
Qed.

Lemma elem_getitem (d : kwdict) k v :
  NoDup (keys d) -> (k, v) ∈ d -> getitem d k = Some v.
Proof.
  unfold keys. induction d as [|[k' v'] d IH]; simpl; intros Hnd Hin.
  - inversion Hin.
  - apply NoDup_cons in Hnd as [Hk Hnd].
    apply elem_of_cons in Hin as [[= -> ->]|Hin].
    + now rewrite String.eqb_refl.
    + destruct (String.eqb_spec k' k) as [->|Hne]; [|now apply IH].
      exfalso. apply Hk. apply list_elem_of_fmap. now exists (k, v).
Qed.

(** The keys of the display without ["bindpass"]. *)
Definition display_keys_without_bindpass : list string :=
  Eval vm_compute in
    List.filter (fun k => negb (String.eqb k "bindpass")) display_keys.

Lemma display_keys_NoDup : NoDup display_keys.
Proof.
  apply NoDup_ListNoDup. apply (List.NoDup_count_occ string_dec).
  intros k.
  destruct (List.in_dec string_dec k display_keys) as [Hin|Hout].
  - vm_compute in Hin.
    repeat (destruct Hin as [<-|Hin]; [vm_compute; lia|]). destruct Hin.
  - apply (List.count_occ_not_In string_dec) in Hout. rewrite Hout. lia.
Qed.

Lemma desired_state_key_list (p : pydict) ds :
  desired_state p = Returns ds ->
  keys ds = if is_None (get p "bindpass")
            then display_keys_without_bindpass else display_keys.
Proof.
  unfold desired_state, desired_state_display.
  destruct (py_lower (get p "groupattr")) as [g|e]; [|discriminate].
  destruct (py_lower (get p "userattr")) as [u|e]; [|discriminate].
  intros [= <-]. unfold drop_absent_bindpass. simpl.
  destruct (is_None (get p "bindpass")); reflexivity.
Qed.

Lemma desired_state_NoDup (p : pydict) ds :
  desired_state p = Returns ds -> NoDup (keys ds).
Proof.
  intros Hd. rewrite (desired_state_key_list _ _ Hd).
  destruct (is_None (get p "bindpass")); [|apply display_keys_NoDup].
  change display_keys_without_bindpass
    with (List.filter (fun k => negb (String.eqb k "bindpass")) display_keys).
  apply NoDup_ListNoDup, List.NoDup_filter, NoDup_ListNoDup,
    display_keys_NoDup.
Qed.

Lemma py_lower_Returns v r :
  py_lower v = Returns r <-> exists s, v = VStr s /\ r = VStr (str_lower s).
Proof.
  destruct v; simpl; split; try discriminate; try (intros (? & ? & ?));
    try discriminate.
  - intros [= <-]. eauto.
  - now simplify_eq.
Qed.

Lemma desired_state_outcome (p : pydict) :
  desired_state p = Raises AttributeError \/
  exists ds, desired_state p = Returns ds.
Proof.
  unfold desired_state, desired_state_display.
  destruct (get p "groupattr"), (get p "userattr"); simpl; eauto.
Qed.

(** X2: the desired state is built exactly when the parameters [groupattr]
    and [userattr] are both strings.  Otherwise the function is left by an
    [AttributeError] before any call on the client: the call log is empty
    and the remote world untouched. *)
Theorem X2_desired_state_needs_string_attrs {W} (client : hvac_client W)
    (module : AnsibleModule) (w : W) :
  ((exists g u, get (params module) "groupattr" = VStr g /\
                get (params module) "userattr" = VStr u) /\
   exists ds, desired_state (params module) = Returns ds) \/
  (((forall g, get (params module) "groupattr" <> VStr g) \/
    (forall u, get (params module) "userattr" <> VStr u)) /\
   desired_state (params module) = Raises AttributeError /\
   run client module w = ({| remote := w; calls := [] |},
                          Raises AttributeError)).
Proof.
  destruct (desired_state (params module)) as [ds|e] eqn:Hd.
  - left. split; [|eauto]. revert Hd.
    unfold desired_state, desired_state_display.
    destruct (get (params module) "groupattr");
      destruct (get (params module) "userattr"); simpl; try discriminate.
    eauto.
  - right.
    assert (He : e = AttributeError).
    { destruct (desired_state_outcome (params module)) as [H|[ds H]];
        congruence. }
    subst e. split; [|split; [reflexivity|now apply run_build_raises]].
    revert Hd. unfold desired_state, desired_state_display.
    destruct (get (params module) "groupattr") eqn:Hg;
      try (intros _; left; intros g; discriminate).
    destruct (get (params module) "userattr") eqn:Hu;
      try (intros _; right; intros u; discriminate).
    simpl. discriminate.
Qed.

(** The entry the display makes for a declared option [k] whose parameter
    holds [v]. *)
Definition forwarded_key (k : string) : string :=
  if String.eqb k "ldap_url" then "url" else k.

Definition forwarded_value (k : string) (v : value) : option value :=
  if String.eqb k "bindpass" && is_None v then None
  else if String.eqb k "groupattr" || String.eqb k "userattr" then
    match v with VStr s => Some (VStr (str_lower s)) | _ => None end
  else Some v.

(** X3: no option declared by [main] other than [mount_point] is dropped:
    the desired state holds each one under its own name ([ldap_url] under
    ["url"]) with the value of the parameter, lower-cased for [groupattr]
    and [userattr]; [bindpass] is held unless the parameter is [None]. *)
Theorem X3_declared_options_forwarded (p : pydict) (ds : kwdict)
    (k : string) :
  desired_state p = Returns ds ->
  k ∈ main_names -> k <> "mount_point" ->
  getitem ds (forwarded_key k) = forwarded_value k (get p k).
Proof.
  intros Hd Hk Hm. apply list_elem_of_In in Hk. vm_compute in Hk.
  revert Hd. unfold desired_state, desired_state_display.
  destruct (py_lower (get p "groupattr")) as [g|e] eqn:Hg; [|discriminate].
  destruct (py_lower (get p "userattr")) as [u|e] eqn:Hu; [|discriminate].
  apply py_lower_Returns in Hg as (sg & Hg & ->).
  apply py_lower_Returns in Hu as (su & Hu & ->).
  intros [= <-]. unfold drop_absent_bindpass, forwarded_key, forwarded_value.
  repeat (destruct Hk as [<-|Hk];
          [try congruence; simpl; rewrite ?Hg, ?Hu;
           destruct (is_None (get p "bindpass")); reflexivity|]).
  destruct Hk.
Qed.

(** ** The calls of a run *)

Lemma after_read_log {W} (client : hvac_client W) (module : AnsibleModule)
    (w : W) ds cur :
  let rd := read_configuration_call (get (params module) "mount_point") in
  (calls (after_read client module w ds cur).1 = [rd] /\
   remote (after_read client module w ds cur).1 = w /\
   forall r, (after_read client module w ds cur).2 = Returns r ->
             match r with
             | Failed _ => True
             | Done changed _ _ => changed && negb (check_mode module) = false
             end) \/
  (calls (after_read client module w ds cur).1 = [rd; configure_call ds] /\
   check_mode module = false /\
   forall r, (after_read client module w ds cur).2 = Returns r ->
             exists before, r = Done true before ds).
Proof.
  intros rd. unfold after_read.
  destruct (compare_loop ds cur false) as [f|ch] eqn:Hl; simpl.
  - left. repeat split. intros r [= <-]. rewrite compare_loop_spec in Hl.
    destruct (first_missing ds cur); now simplify_eq.
  - destruct ch, (check_mode module); simpl.
    + left. repeat split. now intros r [= <-].
    + right. repeat split.
      destruct (configure client ds w).2; intros r; [|discriminate].
      intros [= <-]. eauto.
    + left. repeat split. now intros r [= <-].
    + left. repeat split. now intros r [= <-].
Qed.

(** X4: whatever the parameters, the client and the remote world, a run
    makes no call at all (the desired state could not be built), or one read
    at the mount of the parameters, or that read followed by one [configure]
    call carrying the desired state, the latter only with check mode off. *)
Theorem X4_one_read_then_at_most_one_write {W} (client : hvac_client W)
    (module : AnsibleModule) (w : W) :
  (calls (run client module w).1 = [] /\
   desired_state (params module) = Raises AttributeError) \/
  calls (run client module w).1
    = [read_configuration_call (get (params module) "mount_point")] \/
  (exists ds,
     calls (run client module w).1
       = [read_configuration_call (get (params module) "mount_point");
          configure_call ds] /\
     desired_state (params module) = Returns ds /\
     check_mode module = false).
Proof.
  destruct (run_cases client module w)
    as [(e & Hd & ->)|[(ds & e & _ & _ & _ & ->)|(ds & cur & Hd & _ & ->)]];
    simpl.
  - left. split; [reflexivity|].
    destruct (desired_state_outcome (params module)) as [H|[ds H]]; congruence.
  - right. left. reflexivity.
  - right.
    destruct (after_read_log client module w ds cur)
      as [(-> & _)|(-> & Hc & _)]; [left; reflexivity|].
    right. exists ds. auto.
Qed.

(** X5: a returned result decides the writes: a failure result comes with
    no [configure] call, and a result with [changed] comes with exactly one
    call, carrying the returned ["after"] mapping, when [changed] is [True]
    and check mode is off, and with none otherwise. *)
Theorem X5_write_iff_changed_and_applying {W} (client : hvac_client W)
    (module : AnsibleModule) (w : W) (r : result) :
  (run client module w).2 = Returns r ->
  writes (calls (run client module w).1) =
    match r with
    | Failed _ => []
    | Done changed _ after =>
        if changed && negb (check_mode module) then [after] else []
    end.
Proof.
  destruct (run_cases client module w)
    as [(e & _ & ->)|[(ds & e & _ & _ & _ & ->)|(ds & cur & Hd & _ & ->)]];
    simpl; try discriminate.
  intros Hr.
  destruct (after_read_log client module w ds cur)
    as [(-> & _ & H)|(-> & Hc & H)]; specialize (H r Hr); simpl.
  - destruct r; [reflexivity|]. now rewrite H.
  - destruct H as [before ->]. now rewrite Hc.
Qed.

(** X6: a run whose call log holds no [configure] call leaves the remote
    world as it found it. *)
Theorem X6_no_write_no_remote_change {W} (client : hvac_client W)
    (module : AnsibleModule) (w : W) :
  writes (calls (run client module w).1) = [] ->
  remote (run client module w).1 = w.
Proof.
  destruct (run_cases client module w)
    as [(e & _ & ->)|[(ds & e & _ & _ & _ & ->)|(ds & cur & Hd & _ & ->)]];
    simpl; try reflexivity.
  destruct (after_read_log client module w ds cur)
    as [(_ & -> & _)|(-> & _)]; [reflexivity|]. discriminate.
Qed.

(** X7: an exception of the read other than [InvalidPath] is not caught: it
    leaves the function, after the read alone, with no [configure] call and
    the remote world untouched. *)
Theorem X7_read_error_propagates {W} (client : hvac_client W)
    (module : AnsibleModule) (w : W) (ds : kwdict) (e : exn) :
  desired_state (params module) = Returns ds ->
  read_configuration client (get (params module) "mount_point") w
    = Raises e ->
  e <> InvalidPath ->
  (run client module w).2 = Raises e /\
  calls (run client module w).1
    = [read_configuration_call (get (params module) "mount_point")] /\
  remote (run client module w).1 = w.
Proof.
  intros Hd Hr He. now rewrite (run_read_raises client module w ds e Hd Hr He).
Qed.

(** ** What the comparison does not look at *)

Lemma compare_loop_insert_other items (cur : pydict) changed k x :
  k ∉ keys items ->
  compare_loop items (<[k := x]> cur) changed = compare_loop items cur changed.
Proof.
  unfold keys. revert changed.
  induction items as [|[k' v] items IH]; intros changed Hk; simpl;
    [reflexivity|].
  simpl in Hk. apply not_elem_of_cons in Hk as [Hne Hk].
  rewrite lookup_insert_ne by congruence.
  destruct (negb (String.eqb k' "bindpass")); [|now apply IH].
  destruct (cur !! k'); [now apply IH | reflexivity].
Qed.

Lemma compare_loop_delete_other items (cur : pydict) changed k :
  k ∉ keys items ->
  compare_loop items (delete k cur) changed = compare_loop items cur changed.
Proof.
  unfold keys. revert changed.
  induction items as [|[k' v] items IH]; intros changed Hk; simpl;
    [reflexivity|].
  simpl in Hk. apply not_elem_of_cons in Hk as [Hne Hk].
  rewrite lookup_delete_ne by congruence.
  destruct (negb (String.eqb k' "bindpass")); [|now apply IH].
  destruct (cur !! k'); [now apply IH | reflexivity].
Qed.

(** X8: fields of the stored configuration that the desired state does not
    name are ignored: adding, changing or removing such a field in the
    current state changes neither the failure nor the [changed] flag the
    loop computes. *)
Theorem X8_unnamed_current_fields_ignored (p : pydict) (ds : kwdict)
    (cur : pydict) (changed : bool) (k : string) (x : value) :
  desired_state p = Returns ds ->
  k ∉ display_keys ->
  compare_loop ds (<[k := x]> cur) changed = compare_loop ds cur changed /\
  compare_loop ds (delete k cur) changed = compare_loop ds cur changed.
Proof.
  intros Hd Hk.
  assert (Hn : k ∉ keys ds)
    by (intros Hin; apply Hk; eapply desired_state_keys; eauto).
  split; [now apply compare_loop_insert_other
         | now apply compare_loop_delete_other].
Qed.

(** The part of an outcome that does not mention the two states: the
    failure message or the [changed] flag, or the exception. *)
Definition verdict (o : outcome result) : outcome (string + bool) :=
  match o with
  | Returns (Failed msg) => Returns (inl msg)
  | Returns (Done changed _ _) => Returns (inr changed)
  | Raises e => Raises e
  end.

Lemma desired_state_bindpass_only (p : pydict) v v' :
  match desired_state (<["bindpass" := v]> p),
        desired_state (<["bindpass" := v']> p) with
  | Returns ds, Returns ds' =>
      delitem ds "bindpass" = delitem ds' "bindpass"
  | Raises e, Raises e' => e = e'
  | _, _ => False
  end.
Proof.
  unfold desired_state, desired_state_display.
  rewrite !get_insert_eq, !get_insert_ne by discriminate.
  destruct (py_lower (get p "groupattr")); [|reflexivity].
  destruct (py_lower (get p "userattr")); [|reflexivity].
  unfold drop_absent_bindpass. simpl.
  destruct (is_None v), (is_None v'); simpl; reflexivity.
Qed.

(** The module with parameters [p] where [bindpass] is [v]. *)
Definition with_bindpass (p : pydict) (check : bool) (v : value)
  : AnsibleModule :=
  {| params := <["bindpass" := v]> p; check_mode := check |}.

(** X9: the value given for [bindpass] has no part in the decision: two
    invocations that differ only in [bindpass] make the same number of
    client calls and, in check mode, reach the same failure, the same
    [changed] flag or the same exception.  A new password alone is therefore
    never written. *)
Theorem X9_bindpass_never_decides {W} (client : hvac_client W) (p : pydict)
    (check : bool) (w : W) (v v' : value) :
  length (calls (run client (with_bindpass p check v) w).1)
    = length (calls (run client (with_bindpass p check v') w).1) /\
  verdict (run client (with_bindpass p true v) w).2
    = verdict (run client (with_bindpass p true v') w).2.
Proof.
  pose proof (desired_state_bindpass_only p v v') as Hb.
  assert (Hmp : forall b u, get (params (with_bindpass p b u)) "mount_point"
                            = get p "mount_point")
    by (intros; simpl; now rewrite get_insert_ne by discriminate).
  assert (Hgen : forall b,
    length (calls (run client (with_bindpass p b v) w).1)
      = length (calls (run client (with_bindpass p b v') w).1) /\
    (b = true ->
     verdict (run client (with_bindpass p b v) w).2
       = verdict (run client (with_bindpass p b v') w).2)).
  { intros b.
    destruct (desired_state (<["bindpass" := v]> p)) as [ds|e] eqn:Hd;
      destruct (desired_state (<["bindpass" := v']> p)) as [ds'|e'] eqn:Hd';
      try contradiction.
    - destruct (read_configuration client (get p "mount_point") w)
        as [d|e] eqn:Hr.
      + rewrite (run_after_read client (with_bindpass p b v) w ds d Hd),
          (run_after_read client (with_bindpass p b v') w ds' d Hd')
          by (rewrite Hmp, Hr; reflexivity).
        unfold after_read.
        rewrite (compare_loop_without_bindpass ds),
          (compare_loop_without_bindpass ds'), Hb.
        destruct (compare_loop _ _ false) as [f|ch]; simpl; [auto|].
        destruct ch, b; simpl; split; try reflexivity; discriminate.
      + assert (He : e = InvalidPath \/ e <> InvalidPath)
          by (destruct e; auto; right; discriminate).
        destruct He as [->|Hne].
        * rewrite (run_after_read client (with_bindpass p b v) w ds ∅ Hd),
            (run_after_read client (with_bindpass p b v') w ds' ∅ Hd')
            by (rewrite Hmp, Hr; reflexivity).
          unfold after_read.
          rewrite (compare_loop_without_bindpass ds),
            (compare_loop_without_bindpass ds'), Hb.
          destruct (compare_loop _ _ false) as [f|ch]; simpl; [auto|].
          destruct ch, b; simpl; split; try reflexivity; discriminate.
        * rewrite (run_read_raises client (with_bindpass p b v) w ds e Hd),
            (run_read_raises client (with_bindpass p b v') w ds' e Hd')
            by (try rewrite Hmp; assumption).
          auto.
    - subst e'.
      rewrite (run_build_raises client (with_bindpass p b v) w e Hd),
        (run_build_raises client (with_bindpass p b v') w e Hd').
      auto. }
  split; [apply Hgen | now apply (Hgen true)].
Qed.

(** ** The undeclared [use_pre111_group_cn_behavior] *)

Lemma after_read_changed {W} (client : hvac_client W) (module : AnsibleModule)
    (w : W) ds (cur : pydict) :
  first_missing ds cur = None -> differs ds cur = true ->
  after_read client module w ds cur =
  let rd := read_configuration_call (get (params module) "mount_point") in
  if check_mode module then
    ({| remote := w; calls := [rd] |}, Returns (Done true cur ds))
  else
    ({| remote := (configure client ds w).1;
        calls := [rd; configure_call ds] |},
     match (configure client ds w).2 with
     | Returns _ => Returns (Done true cur ds)
     | Raises e => Raises e
     end).
Proof.
  intros Hm Hf. unfold after_read. rewrite compare_loop_spec, Hm, Hf. simpl.
  now destruct (check_mode module).
Qed.

Lemma desired_state_use_pre111 (p : pydict) ds :
  desired_state p = Returns ds ->
  getitem ds "use_pre111_group_cn_behavior"
    = Some (get p "use_pre111_group_cn_behavior").
Proof.
  unfold desired_state, desired_state_display.
  destruct (py_lower (get p "groupattr")) as [g|e]; [|discriminate].
  destruct (py_lower (get p "userattr")) as [u|e]; [|discriminate].
  intros [= <-]. unfold drop_absent_bindpass. simpl.
  destruct (is_None (get p "bindpass")); reflexivity.
Qed.

(** X10: [main] declares no option [use_pre111_group_cn_behavior], so the
    parameters hold no such key and the desired state carries [None] under
    it.  Against a stored configuration that holds every compared key and a
    boolean under that key, the comparison therefore always finds a
    difference: [changed] is [True] and, with check mode off, the desired
    state is written, however equal the other fields are. *)
Theorem X10_undeclared_option_always_differs {W} (client : hvac_client W)
    (module : AnsibleModule) (w : W) (ds : kwdict) (cur : pydict) (b : bool) :
  params module !! "use_pre111_group_cn_behavior" = None ->
  desired_state (params module) = Returns ds ->
  current_state_of
    (read_configuration client (get (params module) "mount_point") w)
    = Some cur ->
  (forall k v, (k, v) ∈ ds -> k <> "bindpass" -> is_Some (cur !! k)) ->
  cur !! "use_pre111_group_cn_behavior" = Some (VBool b) ->
  getitem ds "use_pre111_group_cn_behavior" = Some VNone /\
  writes (calls (run client module w).1)
    = (if check_mode module then [] else [ds]) /\
  verdict (run client module w).2 =
    (if check_mode module then Returns (inr true)
     else match (configure client ds w).2 with
          | Returns _ => Returns (inr true)
          | Raises e => Raises e
          end).
Proof.
  intros Hp Hd Hr Hall Hcur.
  assert (Hg : getitem ds "use_pre111_group_cn_behavior" = Some VNone).
  { rewrite (desired_state_use_pre111 _ _ Hd). unfold get. now rewrite Hp. }
  split; [exact Hg|].
  rewrite (run_after_read client module w ds cur Hd Hr).
  rewrite after_read_changed.
  - destruct (check_mode module); simpl; [auto|].
    split; [reflexivity|]. now destruct (configure client ds w).2.
  - now apply first_missing_None.
  - apply differs_true.
    exists "use_pre111_group_cn_behavior", VNone, (VBool b).
    split; [now apply getitem_elem|]. split; [discriminate|]. auto.
Qed.

(** ** Running the module twice *)

(** A client reads its writes when, after a [configure] call that returned,
    a read at the mount the call addressed gives a mapping that holds every
    keyword argument of the call. *)
Definition reads_its_writes {W} (DEFAULT_MOUNT_POINT : value)
    (client : hvac_client W) : Prop :=
  forall kwargs w w',
    configure client kwargs w = (w', Returns tt) ->
    exists cur,
      read_configuration client
        (configure_mount DEFAULT_MOUNT_POINT kwargs) w' = Returns cur /\
      forall k v, getitem kwargs k = Some v -> cur !! k = Some v.

Lemma list_to_map_getitem (d : kwdict) k :
  (list_to_map d : pydict) !! k = getitem d k.
Proof.
  induction d as [|[k' v] d IH]; simpl; [apply lookup_empty|].
  destruct (String.eqb_spec k' k) as [->|Hne].
  - apply lookup_insert_eq.
  - now rewrite lookup_insert_ne.
Qed.

Lemma store_client_reads_its_writes :
  reads_its_writes (VStr "ldap") store_client.
Proof.
  intros kw w w'. simpl.
  destruct (configure_mount (VStr "ldap") kw) as [| | |m|]; try discriminate.
  intros [= <-]. exists (list_to_map kw). rewrite lookup_insert_eq.
  split; [reflexivity|]. intros k v H. now rewrite list_to_map_getitem.
Qed.

(** X11: with check mode off, against a client that reads its writes, and
    with the parameter [mount_point] at the default mount of the client, a run
    that returned [changed = True] is followed, from the world it left, by a
    run that returns [changed = False] and writes nothing. *)
Theorem X11_second_run_unchanged {W} (client : hvac_client W)
    (DEFAULT_MOUNT_POINT : value) (module : AnsibleModule) (w : W)
    (ds : kwdict) (cur : pydict) :
  reads_its_writes DEFAULT_MOUNT_POINT client ->
  get (params module) "mount_point" = DEFAULT_MOUNT_POINT ->
  check_mode module = false ->
  (run client module w).2 = Returns (Done true cur ds) ->
  exists cur',
    (run client module (remote (run client module w).1)).2
      = Returns (Done false cur' ds) /\
    writes (calls (run client module (remote (run client module w).1)).1)
      = [].
Proof.
  intros Hrw Hmp Hcm Hrun.
  destruct (run_done _ _ _ _ _ _ Hrun) as [Hd Hcur].
  revert Hrun. rewrite (run_after_read client module w ds cur Hd Hcur).
  unfold after_read. rewrite compare_loop_spec.
  destruct (first_missing ds cur); [simpl; discriminate|].
  rewrite Hcm. destruct (differs ds cur); simpl; [|discriminate].
  destruct (configure client ds w) as [w' [[]|e]] eqn:Hc; simpl;
    [intros _|discriminate].
  destruct (Hrw ds w w' Hc) as (cur' & Hread & Hheld).
  assert (Hk : "mount_point" ∉ keys ds).
  { intros Hin. apply mount_point_not_display_key.
    eapply desired_state_keys; eauto. }
  apply getitem_None in Hk. unfold configure_mount in Hread.
  rewrite Hk, <- Hmp in Hread.
  assert (Hcur' : current_state_of
            (read_configuration client (get (params module) "mount_point") w')
            = Some cur') by now rewrite Hread.
  exists cur'. rewrite (run_after_read client module w' ds cur' Hd Hcur').
  assert (Ha : agrees ds cur' = true).
  { apply agrees_true. intros k v Hin _. exists v. split; [|apply py_eq_refl].
    apply Hheld, elem_getitem; [|exact Hin].
    eapply desired_state_NoDup; eauto. }
  apply agrees_no_difference in Ha as [Hm Hf].
  unfold after_read. rewrite compare_loop_spec, Hm, Hf. simpl. auto.
Qed.

(** ** The argument schema *)

Lemma main_names_NoDup : NoDup main_names.
Proof.
  apply NoDup_ListNoDup. apply (List.NoDup_count_occ string_dec).
  intros k.
  destruct (List.in_dec string_dec k main_names) as [Hin|Hout].
  - vm_compute in Hin.
    repeat (destruct Hin as [<-|Hin]; [vm_compute; lia|]). destruct Hin.
  - apply (List.count_occ_not_In string_dec) in Hout. rewrite Hout. lia.
Qed.

Lemma foldl_insert_other (k : string) (l : list (string * FieldSpec))
    (base : gmap string FieldSpec) :
  k ∉ l.*1 ->
  foldl (fun a kv => <[kv.1 := kv.2]> a) base l !! k = base !! k.
Proof.
  revert base. induction l as [|[k' f] l IH]; intros base Hk; simpl;
    [reflexivity|].
  simpl in Hk. apply not_elem_of_cons in Hk as [Hne Hk].
  rewrite IH by exact Hk. now rewrite lookup_insert_ne.
Qed.

Lemma foldl_insert_elem (k : string) (spec : FieldSpec)
    (l : list (string * FieldSpec)) (base : gmap string FieldSpec) :
  NoDup l.*1 -> (k, spec) ∈ l ->
  foldl (fun a kv => <[kv.1 := kv.2]> a) base l !! k = Some spec.
Proof.
  revert base. induction l as [|[k' f] l IH]; intros base Hnd Hin; simpl.
  - inversion Hin.
  - simpl in Hnd. apply NoDup_cons in Hnd as [Hk Hnd].
    apply elem_of_cons in Hin as [[= -> ->]|Hin].
    + rewrite foldl_insert_other by exact Hk. apply lookup_insert_eq.
    + now apply IH.
Qed.

(** X13: the schema [main] hands to Ansible holds each of its own
    declarations as written, whatever the base schema declared under the
    same name, and leaves every other entry of the base schema as it was. *)
Theorem X13_argspec_overrides_base (base : gmap string FieldSpec)
    (k : string) (spec : FieldSpec) :
  (k, spec) ∈ main_fields ->
  argspec base !! k = Some spec /\
  forall k', k' ∉ main_names -> argspec base !! k' = base !! k'.
Proof.
  intros Hin. unfold argspec. split.
  - apply foldl_insert_elem; [apply main_names_NoDup | exact Hin].
  - intros k' Hk'. now apply foldl_insert_other.
Qed.

(** ** A mount other than the default *)

(** A client keeps its mounts apart when a [configure] call leaves the
    answer of a read at any mount other than the addressed one as it was. *)
Definition keeps_mounts_apart {W} (DEFAULT_MOUNT_POINT : value)
    (client : hvac_client W) : Prop :=
  forall kwargs w m,
    m <> configure_mount DEFAULT_MOUNT_POINT kwargs ->
    read_configuration client m (configure client kwargs w).1
      = read_configuration client m w.

Lemma store_client_keeps_mounts_apart :
  keeps_mounts_apart (VStr "ldap") store_client.
Proof.
  intros kw w m Hm. simpl.
  destruct (configure_mount (VStr "ldap") kw) as [| | |m'|]; try reflexivity.
  simpl. destruct m as [| | |s|]; try reflexivity.
  rewrite lookup_insert_ne by congruence. reflexivity.
Qed.

(** X14: with the parameter [mount_point] at a mount other than the default
    of the client, against a client that keeps its mounts apart, a run with
    check mode off that found a difference and wrote is followed, from the
    world it left, by a run that reads the same current state, finds the
    same difference and makes the same [configure] call again: the write
    never reaches the mount that is compared. *)
Theorem X14_other_mount_never_converges {W} (client : hvac_client W)
    (DEFAULT_MOUNT_POINT : value) (module : AnsibleModule) (w : W)
    (ds : kwdict) (cur : pydict) :
  keeps_mounts_apart DEFAULT_MOUNT_POINT client ->
  get (params module) "mount_point" <> DEFAULT_MOUNT_POINT ->
  check_mode module = false ->
  (run client module w).2 = Returns (Done true cur ds) ->
  current_state_of
    (read_configuration client (get (params module) "mount_point")
       (remote (run client module w).1)) = Some cur /\
  calls (run client module (remote (run client module w).1)).1
    = [read_configuration_call (get (params module) "mount_point");
       configure_call ds].
Proof.
  intros Hka Hmp Hcm Hrun.
  destruct (run_done _ _ _ _ _ _ Hrun) as [Hd Hcur].
  assert (Hk : getitem ds "mount_point" = None).
  { apply getitem_None. intros Hin. apply mount_point_not_display_key.
    eapply desired_state_keys; eauto. }
  revert Hrun. rewrite (run_after_read client module w ds cur Hd Hcur).
  unfold after_read. rewrite compare_loop_spec.
  destruct (first_missing ds cur) eqn:Hm; [simpl; discriminate|].
  rewrite Hcm. destruct (differs ds cur) eqn:Hf; simpl; [|discriminate].
  intros _.
  assert (Hcur' : current_state_of
            (read_configuration client (get (params module) "mount_point")
               (configure client ds w).1) = Some cur).
  { rewrite Hka; [exact Hcur|]. unfold configure_mount. now rewrite Hk. }
  split; [exact Hcur'|].
  rewrite (run_after_read client module _ ds cur Hd Hcur').
  rewrite after_read_changed by assumption. now rewrite Hcm.
Qed.

(** ** Letter case *)

Lemma is_upper_bound a : is_upper a = true -> nat_of_ascii a + 32 < 256.
Proof.
  unfold is_upper. intros H. apply andb_true_iff in H as [_ H].
  apply Nat.leb_le in H. lia.
Qed.

Lemma is_upper_shifted a b :
  is_upper a = true -> nat_of_ascii b = nat_of_ascii a + 32 ->
  is_upper b = false /\ ascii_lower a = b.
Proof.
  intros Ha Hb. split.
  - unfold is_upper in *. apply andb_true_iff in Ha as [H1 H2].
    apply Nat.leb_le in H1, H2. rewrite Hb. apply andb_false_iff. right.
    apply Nat.leb_gt. lia.
  - unfold ascii_lower. rewrite Ha, <- Hb. apply ascii_nat_embedding.
Qed.

Lemma ascii_lower_not_upper a : is_upper a = false -> ascii_lower a = a.
Proof. intros H. unfold ascii_lower. now rewrite H. Qed.

Lemma lower_ascii_app s t :
  lower_ascii (s ++ t) = (lower_ascii s ++ lower_ascii t)%string.
Proof. induction s as [|a s IH]; simpl; [reflexivity | now rewrite IH]. Qed.

Lemma is_ascii_app s t : is_ascii (s ++ t) = is_ascii s && is_ascii t.
Proof.
  induction s as [|a s IH]; simpl; [reflexivity|].
  now rewrite IH, andb_assoc.
Qed.

Lemma case_pair_lower_ascii u l :
  case_pair u l -> is_ascii u = true \/ is_ascii l = true ->
  lower_ascii u = l /\ lower_ascii l = l.
Proof.
  intros [a b Ha Hb| |] Hasc.
  - destruct (is_upper_shifted a b Ha Hb) as [Hnb Hab]. simpl.
    now rewrite Hab, (ascii_lower_not_upper b Hnb).
  - destruct Hasc as [H|H]; vm_compute in H; discriminate.
  - destruct Hasc as [H|H]; vm_compute in H; discriminate.
Qed.

Lemma differ_only_in_case_lower_ascii s t :
  differ_only_in_case s t -> is_ascii s = true -> is_ascii t = true ->
  lower_ascii s = lower_ascii t.
Proof.
  induction 1 as [|a s t _ IH|u l s t Hp _ IH|u l s t Hp _ IH];
    intros Hs Ht.
  - reflexivity.
  - simpl in *. apply andb_true_iff in Hs as [_ Hs].
    apply andb_true_iff in Ht as [_ Ht]. now rewrite IH.
  - rewrite is_ascii_app in Hs, Ht. apply andb_true_iff in Hs as [Hu Hs].
    apply andb_true_iff in Ht as [Hl Ht].
    destruct (case_pair_lower_ascii u l Hp (or_introl Hu)) as [H1 H2].
    now rewrite !lower_ascii_app, H1, H2, IH.
  - rewrite is_ascii_app in Hs, Ht. apply andb_true_iff in Hs as [Hl Hs].
    apply andb_true_iff in Ht as [Hu Ht].
    destruct (case_pair_lower_ascii u l Hp (or_introl Hu)) as [H1 H2].
    now rewrite !lower_ascii_app, H1, H2, IH.
Qed.

Lemma lower_ascii_only_case s :
  differ_only_in_case s (lower_ascii s) /\ no_upper (lower_ascii s) = true.
Proof.
  induction s as [|a s [IH1 IH2]]; simpl; [split; [constructor|reflexivity]|].
  destruct (is_upper a) eqn:Ha.
  - assert (Hb : nat_of_ascii (ascii_lower a) = nat_of_ascii a + 32).
    { unfold ascii_lower. rewrite Ha. apply nat_ascii_embedding.
      now apply is_upper_bound. }
    destruct (is_upper_shifted a _ Ha Hb) as [Hnb _]. rewrite Hnb. simpl.
    split; [|exact IH2].
    apply (doc_lower (String a "") (String (ascii_lower a) "") s
             (lower_ascii s)); [now constructor | exact IH1].
  - rewrite (ascii_lower_not_upper a Ha), Ha. simpl.
    split; [now constructor | exact IH2].
Qed.

Lemma lower_ascii_differ_only_in_case s t :
  lower_ascii s = lower_ascii t -> differ_only_in_case s t.
Proof.
  revert t. induction s as [|a s IH]; intros [|b t]; simpl; try discriminate.
  - constructor.
  - intros [= Hab Hst]. specialize (IH t Hst). revert Hab.
    unfold ascii_lower.
    destruct (is_upper a) eqn:Ha, (is_upper b) eqn:Hb; intros Hab.
    + apply (f_equal nat_of_ascii) in Hab.
      rewrite !nat_ascii_embedding in Hab by now apply is_upper_bound.
      assert (a = b) as ->.
      { rewrite <- (ascii_nat_embedding a), <- (ascii_nat_embedding b).
        f_equal. lia. }
      now constructor.
    + subst b.
      apply (doc_lower (String a "") (String _ "") s t); [|exact IH].
      constructor; [exact Ha|]. apply nat_ascii_embedding.
      now apply is_upper_bound.
    + subst a.
      apply (doc_upper (String b "") (String _ "") s t); [|exact IH].
      constructor; [exact Hb|]. apply nat_ascii_embedding.
      now apply is_upper_bound.
    + subst b. now constructor.
Qed.

Lemma desired_state_attr (p : pydict) ds k s :
  k = "groupattr" \/ k = "userattr" ->
  desired_state p = Returns ds -> get p k = VStr s ->
  getitem ds k = Some (VStr (str_lower s)).
Proof.
  intros Hk. unfold desired_state, desired_state_display.
  destruct (py_lower (get p "groupattr")) as [g|e] eqn:Hg; [|discriminate].
  destruct (py_lower (get p "userattr")) as [u|e] eqn:Hu; [|discriminate].
  intros [= <-] Hs. unfold drop_absent_bindpass. simpl.
  destruct Hk as [-> | ->]; rewrite Hs in *; simpl in *; simplify_eq;
    destruct (is_None (get p "bindpass")); reflexivity.
Qed.

Lemma desired_state_same_lower (p : pydict) k s t :
  k = "groupattr" \/ k = "userattr" ->
  str_lower s = str_lower t ->
  desired_state (<[k := VStr s]> p) = desired_state (<[k := VStr t]> p).
Proof.
  intros [-> | ->] H; unfold desired_state, desired_state_display;
    rewrite !get_insert_eq, !get_insert_ne by discriminate; simpl;
    now rewrite H.
Qed.

(** A capital sigma that ends a word is lower-cased to a final sigma, so the
    capital and the small spelling of a word in sigma never build the same
    desired state. *)
Lemma final_sigma_states_differ (p : pydict) ds :
  desired_state
    (<["groupattr" := VStr (GREEK_CAPITAL_ALPHA ++ GREEK_CAPITAL_SIGMA)]> p)
    = Returns ds ->
  desired_state
    (<["groupattr" := VStr (greek_small_alpha ++ greek_small_sigma)]> p)
    <> Returns ds.
Proof.
  intros H1 H2.
  pose proof (desired_state_attr _ _ "groupattr" _ (or_introl eq_refl) H1
                (get_insert_eq _ _ _)) as E1.
  pose proof (desired_state_attr _ _ "groupattr" _ (or_introl eq_refl) H2
                (get_insert_eq _ _ _)) as E2.
  rewrite str_lower_final_sigma in E1. rewrite str_lower_small_sigma in E2.
  rewrite E1 in E2. vm_compute in E2. discriminate.
Qed.

(** C8, amended: for ASCII values given for [groupattr] or [userattr], the
    desired state holds the value lower-cased, that is the string that
    differs from it only in letter case and has no capital letter; so two
    ASCII values that differ only in letter case build the same desired state
    and have the same run; and with [groupattr] given as ["CN"], against a
    current state holding ["cn"] and the other compared keys at values equal
    to the desired ones, the function returns [changed = False] and writes
    nothing. *)
Theorem C8_ascii_attr_lowercased {W} (client : hvac_client W) (p : pydict)
    (check : bool) (w : W) (k s t : string) :
  k = "groupattr" \/ k = "userattr" ->
  is_ascii s = true -> is_ascii t = true ->
  differ_only_in_case s t ->
  differ_only_in_case s (lower_ascii s) /\
  no_upper (lower_ascii s) = true /\
  (forall ds, desired_state (<[k := VStr s]> p) = Returns ds ->
     getitem ds k = Some (VStr (lower_ascii s))) /\
  desired_state (<[k := VStr s]> p) = desired_state (<[k := VStr t]> p) /\
  run client (with_param p check k s) w
    = run client (with_param p check k t) w /\
  (forall ds cur,
     desired_state (<["groupattr" := VStr "CN"]> p) = Returns ds ->
     current_state_of (read_configuration client (get p "mount_point") w)
       = Some cur ->
     cur !! "groupattr" = Some (VStr "cn") ->
     (forall k' v, (k', v) ∈ ds -> k' <> "bindpass" -> k' <> "groupattr" ->
        exists c, cur !! k' = Some c /\ py_eq v c = true) ->
     (run client (with_param p check "groupattr" "CN") w).2
       = Returns (Done false cur ds) /\
     writes (calls (run client (with_param p check "groupattr" "CN") w).1)
       = []).
Proof.
  intros Hk Hs Ht Hst.
  assert (Hl : str_lower s = str_lower t).
  { rewrite (str_lower_ascii s Hs), (str_lower_ascii t Ht).
    now apply differ_only_in_case_lower_ascii. }
  assert (Hmp : forall k' u,
            k' = "groupattr" \/ k' = "userattr" ->
            get (params (with_param p check k' u)) "mount_point"
            = get p "mount_point").
  { intros k' u [-> | ->]; simpl; now rewrite get_insert_ne by discriminate. }
  destruct (lower_ascii_only_case s) as [Hc Hn].
  split; [exact Hc|]. split; [exact Hn|]. split; [|split; [|split]].
  - intros ds Hd. rewrite <- (str_lower_ascii s Hs).
    apply (desired_state_attr _ _ k s Hk Hd). apply get_insert_eq.
  - now apply desired_state_same_lower.
  - apply run_ext; simpl; [now apply desired_state_same_lower| |reflexivity].
    destruct Hk as [-> | ->]; now rewrite !get_insert_ne by discriminate.
  - intros ds cur Hd Hcur Hg Hall.
    assert (Hcn : getitem ds "groupattr" = Some (VStr "cn")).
    { rewrite (desired_state_attr _ _ "groupattr" "CN" (or_introl eq_refl) Hd
                 (get_insert_eq _ _ _)).
      now rewrite (str_lower_ascii "CN" eq_refl). }
    assert (Ha : agrees ds cur = true).
    { apply agrees_true. intros k' v Hin Hb.
      destruct (String.eqb_spec k' "groupattr") as [->|Hne]; [|eauto].
      exists (VStr "cn"). split; [exact Hg|].
      rewrite (elem_getitem ds "groupattr" v) in Hcn;
        [|eapply desired_state_NoDup; eauto|exact Hin].
      injection Hcn as ->. reflexivity. }
    apply agrees_no_difference in Ha as [Hm Hf].
    rewrite (run_after_read client (with_param p check "groupattr" "CN") w
               ds cur Hd)
      by (rewrite Hmp by auto; exact Hcur).
    unfold after_read. rewrite compare_loop_spec, Hm, Hf. simpl. auto.
Qed.

(** X12: on ASCII values lower-casing forgets nothing but the letter case:
    when two ASCII strings given for [groupattr] (or for [userattr]) build
    the same desired state, they differ only in the case of their letters. *)
Theorem X12_same_desired_state_only_case (p : pydict) (k s t : string)
    (ds : kwdict) :
  k = "groupattr" \/ k = "userattr" ->
  is_ascii s = true -> is_ascii t = true ->
  desired_state (<[k := VStr s]> p) = Returns ds ->
  desired_state (<[k := VStr t]> p) = Returns ds ->
  differ_only_in_case s t.
Proof.
  intros Hk Hs Ht Hds Hdt. apply lower_ascii_differ_only_in_case.
  pose proof (desired_state_attr _ _ k s Hk Hds (get_insert_eq _ _ _)) as H1.
  pose proof (desired_state_attr _ _ k t Hk Hdt (get_insert_eq _ _ _)) as H2.
  rewrite (str_lower_ascii s Hs) in H1. rewrite (str_lower_ascii t Ht) in H2.
  congruence.
Qed.

End Reconciler.

(** * Concrete runs

    The theorems above hold for every [Python].  The runs below are made
    with an instance that lower-cases ASCII strings as [lower_ascii] does and
    the capital Greek word of the laws as the laws say; the parameters and
    stored configurations used are ASCII but for that word. *)

Definition reference_lower (s : string) : string :=
  if String.eqb s (GREEK_CAPITAL_ALPHA ++ GREEK_CAPITAL_SIGMA)
  then (greek_small_alpha ++ greek_small_final_sigma)%string
  else lower_ascii s.

Lemma reference_lower_ascii s :
  is_ascii s = true -> reference_lower s = lower_ascii s.
Proof.
  unfold reference_lower.
  destruct (String.eqb_spec s (GREEK_CAPITAL_ALPHA ++ GREEK_CAPITAL_SIGMA))
    as [->|_]; [|reflexivity].
  intros H. vm_compute in H. discriminate.
Qed.

Definition reference_python : Python :=
  {| str_lower := reference_lower;
     str_lower_ascii := reference_lower_ascii;
     str_lower_final_sigma := eq_refl;
     str_lower_small_sigma := eq_refl |}.

#[local] Existing Instance reference_python.

(** A stored configuration that holds every compared key of the default
    desired state with the same value, as the server would after a write of
    it. *)
Definition stored_defaults : pydict :=
  match desired_state default_params with
  | Returns d => <["bindpass" := VStr "secret"]> (list_to_map d)
  | Raises _ => ∅
  end.

(** The server holding [stored_defaults] under the mount ["ldap"]. *)
Definition stored_world : gmap string pydict :=
  {["ldap" := stored_defaults]}.

(** The desired state built from the default parameters. *)
Definition default_desired : kwdict :=
  Eval vm_compute in
    match desired_state default_params with
    | Returns d => d
    | Raises _ => []
    end.

Definition default_module (check : bool) : AnsibleModule :=
  {| params := default_params; check_mode := check |}.

Lemma C1_witness :
  desired_state (params (default_module false)) = Returns default_desired /\
  (run store_client (default_module false) stored_world).2
    = Returns (Done false stored_defaults default_desired) /\
  writes (calls (run store_client (default_module false) stored_world).1)
    = [] /\
  remote (run store_client (default_module false) stored_world).1
    = stored_world.
Proof.
  split; [reflexivity|].
  apply (C1_equal_states_unchanged store_client (default_module false)
           stored_world default_desired stored_defaults).
  - reflexivity.
  - reflexivity.
  - apply agrees_true. vm_compute. reflexivity.
Defined.

(** The stored configuration with another server address. *)
Definition stored_other_url : pydict :=
  <["url" := VStr "ldap://a"]> stored_defaults.

Lemma C2_witness :
  writes (calls (run store_client (default_module false)
                   {["ldap" := stored_other_url]}).1) = [default_desired] /\
  (run store_client (default_module false) {["ldap" := stored_other_url]}).2
    = Returns (Done true stored_other_url default_desired).
Proof.
  pose proof (C2_differing_state_written_once store_client
                (default_module false) {["ldap" := stored_other_url]}
                default_desired stored_other_url
                "url" (VStr "ldap://127.0.0.1") (VStr "ldap://a")) as H.
  destruct H as [(Hw & _ & Hr) _].
  - reflexivity.
  - reflexivity.
  - apply first_missing_None. vm_compute. reflexivity.
  - apply list_elem_of_In. vm_compute. tauto.
  - discriminate.
  - reflexivity.
  - reflexivity.
  - split; [exact Hw | exact Hr].
Defined.

(** A stored configuration of a server that does not know ["userfilter"]. *)
Definition stored_without_userfilter : pydict :=
  delete "userfilter" stored_defaults.

Lemma C3_witness :
  exists k',
    k' ∈ keys default_desired /\ k' <> "bindpass" /\
    stored_without_userfilter !! k' = None /\
    first_missing default_desired stored_without_userfilter = Some k' /\
    (run store_client (default_module false)
       {["ldap" := stored_without_userfilter]}).2
      = Returns (Failed ("HVAC unsupported parameter: " ++ repr k')) /\
    writes (calls (run store_client (default_module false)
                     {["ldap" := stored_without_userfilter]}).1) = [] /\
    remote (run store_client (default_module false)
              {["ldap" := stored_without_userfilter]}).1
      = {["ldap" := stored_without_userfilter]}.
Proof.
  apply (C3_missing_key_fails_without_write store_client
           (default_module false) {["ldap" := stored_without_userfilter]}
           default_desired stored_without_userfilter
           "userfilter" (VStr default_userfilter)).
  - reflexivity.
  - reflexivity.
  - apply list_elem_of_In. vm_compute. tauto.
  - discriminate.
  - reflexivity.
Defined.

Lemma C4_witness :
  get (params (default_module false)) "bindpass" = VNone /\
  ("bindpass" ∉ keys default_desired) /\
  (forall kw,
     kw ∈ writes (calls (run store_client (default_module false)
                           {["ldap" := stored_other_url]}).1) ->
     "bindpass" ∉ keys kw).
Proof.
  split; [reflexivity|].
  destruct (C4_secret_not_compared_absent_when_None store_client
              (default_module false) {["ldap" := stored_other_url]})
    as [_ H].
  destruct (H eq_refl) as (Hds & Hw & _).
  split; [apply Hds; reflexivity | exact Hw].
Defined.

Lemma C6_witness :
  run store_client (default_module false) ∅
    = run (answering store_client (Returns ∅)) (default_module false) ∅ /\
  (run store_client (default_module false) ∅).2 <> Raises InvalidPath.
Proof.
  destruct (C6_invalid_path_is_empty_state store_client
              (default_module false) ∅) as (H1 & _ & H2).
  - reflexivity.
  - split; [exact H1 | exact H2].
Defined.

Lemma C9_witness :
  (run store_client (default_module false) ∅).2 =
    Returns (Failed "HVAC unsupported parameter: 'anonymous_group_search'") /\
  writes (calls (run store_client (default_module false) ∅).1) = [] /\
  remote (run store_client (default_module false) ∅).1 = ∅.
Proof.
  destruct (C9_unconfigured_mount_always_fails store_client
              (default_module false) ∅ default_desired) as (_ & H).
  - reflexivity.
  - reflexivity.
  - exact H.
Defined.

Lemma C8_witness :
  differ_only_in_case "CN" "cn" /\
  getitem default_desired "groupattr" = Some (VStr "cn") /\
  desired_state (<["groupattr" := VStr "CN"]> default_params)
    = desired_state (<["groupattr" := VStr "cn"]> default_params) /\
  (run store_client (with_param default_params false "groupattr" "CN")
     stored_world).2
    = Returns (Done false stored_defaults default_desired).
Proof.
  assert (H : differ_only_in_case "CN" "cn").
  { apply (doc_lower "C" "c" "N" "n"); [now constructor|].
    apply (doc_lower "N" "n" "" ""); [now constructor | constructor]. }
  split; [exact H|].
  destruct (C8_ascii_attr_lowercased store_client default_params false
              stored_world "groupattr" "CN" "cn" (or_introl eq_refl)
              eq_refl eq_refl H) as (_ & _ & H1 & H2 & _ & H3).
  split; [apply H1; reflexivity|]. split; [exact H2|].
  apply (H3 default_desired stored_defaults); [reflexivity..|].
  intros k' v Hin Hb _.
  exact (proj1 (agrees_true default_desired stored_defaults) eq_refl
           k' v Hin Hb).
Defined.

(** C8, as stated, fails: the Greek word alpha-sigma in capitals and in small
    letters differs only in letter case, and the two spellings build
    different desired states, the capital sigma being lower-cased to a final
    sigma. *)
Lemma C8_counterexample :
  differ_only_in_case (GREEK_CAPITAL_ALPHA ++ GREEK_CAPITAL_SIGMA)
    (greek_small_alpha ++ greek_small_sigma) /\
  desired_state
    (<["groupattr" := VStr (GREEK_CAPITAL_ALPHA ++ GREEK_CAPITAL_SIGMA)]>
       default_params)
  <> desired_state
       (<["groupattr" := VStr (greek_small_alpha ++ greek_small_sigma)]>
          default_params).
Proof.
  split.
  - apply (doc_lower GREEK_CAPITAL_ALPHA greek_small_alpha
             GREEK_CAPITAL_SIGMA greek_small_sigma cp_alpha).
    exact (doc_lower GREEK_CAPITAL_SIGMA greek_small_sigma "" "" cp_sigma
             doc_nil).
  - destruct (desired_state
                (<["groupattr" :=
                     VStr (GREEK_CAPITAL_ALPHA ++ GREEK_CAPITAL_SIGMA)]>
                   default_params)) as [ds|e] eqn:H1.
    + intros H2. symmetry in H2.
      exact (final_sigma_states_differ default_params ds H1 H2).
    + vm_compute in H1. discriminate.
Qed.

(** With the mount ["corp"] given, the store is read there and written
    under ["ldap"]. *)
Example mount_point_corp_writes_ldap :
  calls (run store_client
           (with_mount_point (default_module false) (VStr "corp"))
           {["corp" := stored_other_url]}).1
    = [read_configuration_call (VStr "corp");
       configure_call default_desired] /\
  remote (run store_client
            (with_mount_point (default_module false) (VStr "corp"))
            {["corp" := stored_other_url]}).1 !! "ldap"
    = Some (list_to_map default_desired).
Proof. split; reflexivity. Qed.

Lemma C10_witness :
  calls (run store_client
           (with_mount_point (default_module false) (VStr "corp"))
           {["corp" := stored_other_url]}).1
    = [read_configuration_call (VStr "corp");
       configure_call default_desired] /\
  calls (run store_client
           (with_mount_point (default_module false) (VStr "ldap"))
           {["ldap" := stored_defaults; "corp" := stored_other_url]}).1
    = [read_configuration_call (VStr "ldap")] /\
  configure_mount (VStr "ldap") default_desired = VStr "ldap".
Proof.
  destruct (C10_mount_point_reaches_only_the_read store_client
              (default_module false) {["corp" := stored_other_url]}
              (VStr "corp") (VStr "ldap") default_desired)
    as (_ & _ & H3 & H4 & _); [reflexivity|].
  destruct (C10_mount_point_reaches_only_the_read store_client
              (default_module false)
              {["ldap" := stored_defaults; "corp" := stored_other_url]}
              (VStr "ldap") (VStr "ldap") default_desired)
    as (_ & _ & _ & H5 & _); [reflexivity|].
  split; [exact H4|]. split; [exact H5 | exact H3].
Defined.

(** C7, as stated, fails: the desired state built from the default
    parameters holds the keys ["url"] and ["use_pre111_group_cn_behavior"],
    which are names neither of the field catalog nor of the fields [main]
    declares. *)
Lemma C7_counterexample :
  ~ keys_declared field_catalog default_params /\
  ~ keys_declared main_names default_params /\
  "url" ∈ keys default_desired /\
  "use_pre111_group_cn_behavior" ∈ keys default_desired.
Proof.
  assert (Hu : "url" ∈ keys default_desired)
    by (apply list_elem_of_In; vm_compute; tauto).
  assert (Hp : "use_pre111_group_cn_behavior" ∈ keys default_desired)
    by (apply list_elem_of_In; vm_compute; tauto).
  repeat split; try assumption.
  - intros H. specialize (H default_desired "url" eq_refl Hu).
    apply list_elem_of_In in H. vm_compute in H. intuition discriminate.
  - intros H. specialize (H default_desired "url" eq_refl Hu).
    apply list_elem_of_In in H. vm_compute in H. intuition discriminate.
Qed.

Lemma C7_witness :
  "userattr" ∈ keys default_desired /\
  "userattr" ∈ main_names /\
  is_Some (argspec ∅ !! "userattr") /\
  getitem default_desired "url" = Some (get default_params "ldap_url").
Proof.
  assert (Hk : "userattr" ∈ keys default_desired)
    by (apply list_elem_of_In; vm_compute; tauto).
  split; [exact Hk|].
  destruct (C7_keys_declared_but_client_names ∅ default_params
              default_desired "userattr") as (H1 & H2 & H3 & _).
  - reflexivity.
  - exact Hk.
  - discriminate.
  - discriminate.
  - split; [exact H1|]. split; [exact H2 | exact H3].
Defined.

Lemma X3_witness :
  getitem default_desired "url" = Some (VStr "ldap://127.0.0.1") /\
  getitem default_desired "bindpass" = None.
Proof.
  split.
  - apply (X3_declared_options_forwarded default_params default_desired
             "ldap_url"); [reflexivity| |discriminate].
    apply list_elem_of_In. vm_compute. tauto.
  - apply (X3_declared_options_forwarded default_params default_desired
             "bindpass"); [reflexivity| |discriminate].
    apply list_elem_of_In. vm_compute. tauto.
Defined.

Lemma X5_witness :
  writes (calls (run store_client (default_module true)
                   {["ldap" := stored_other_url]}).1) = [] /\
  writes (calls (run store_client (default_module false)
                   {["ldap" := stored_other_url]}).1) = [default_desired].
Proof.
  split.
  - apply (X5_write_iff_changed_and_applying store_client
             (default_module true) {["ldap" := stored_other_url]}
             (Done true stored_other_url default_desired)).
    reflexivity.
  - apply (X5_write_iff_changed_and_applying store_client
             (default_module false) {["ldap" := stored_other_url]}
             (Done true stored_other_url default_desired)).
    reflexivity.
Defined.

Lemma X6_witness :
  remote (run store_client (default_module true)
            {["ldap" := stored_other_url]}).1
    = {["ldap" := stored_other_url]}.
Proof.
  apply (X6_no_write_no_remote_change store_client (default_module true)
           {["ldap" := stored_other_url]}).
  reflexivity.
Defined.

(** The parameters with a mount that is not a string: the stand-in server
    refuses the read. *)
Definition params_numeric_mount : AnsibleModule :=
  {| params := <["mount_point" := VInt 7]> default_params;
     check_mode := false |}.

Lemma X7_witness :
  (run store_client params_numeric_mount stored_world).2
    = Raises (ClientError "mount_point") /\
  remote (run store_client params_numeric_mount stored_world).1
    = stored_world.
Proof.
  destruct (X7_read_error_propagates store_client params_numeric_mount
              stored_world default_desired (ClientError "mount_point"))
    as (H1 & _ & H2).
  - reflexivity.
  - reflexivity.
  - discriminate.
  - split; [exact H1 | exact H2].
Defined.

Lemma X8_witness :
  compare_loop default_desired
    (<["connection_timeout" := VInt 30]> stored_defaults) false
    = compare_loop default_desired stored_defaults false.
Proof.
  apply (X8_unnamed_current_fields_ignored default_params default_desired
           stored_defaults false "connection_timeout" (VInt 30)).
  - reflexivity.
  - intros H. apply list_elem_of_In in H. vm_compute in H.
    intuition discriminate.
Defined.

(** A stored configuration as the server reports it: the compared fields of
    the default desired state, with [False] under
    ["use_pre111_group_cn_behavior"]. *)
Definition stored_as_reported : pydict :=
  <["use_pre111_group_cn_behavior" := VBool false]> stored_defaults.

Lemma X10_witness :
  writes (calls (run store_client (default_module false)
                   {["ldap" := stored_as_reported]}).1) = [default_desired] /\
  verdict (run store_client (default_module true)
             {["ldap" := stored_as_reported]}).2 = Returns (inr true).
Proof.
  split.
  - destruct (X10_undeclared_option_always_differs store_client
                (default_module false) {["ldap" := stored_as_reported]}
                default_desired stored_as_reported false) as (_ & H & _);
      [reflexivity|reflexivity|reflexivity| |reflexivity|exact H].
    apply first_missing_None. reflexivity.
  - destruct (X10_undeclared_option_always_differs store_client
                (default_module true) {["ldap" := stored_as_reported]}
                default_desired stored_as_reported false) as (_ & _ & H);
      [reflexivity|reflexivity|reflexivity| |reflexivity|exact H].
    apply first_missing_None. reflexivity.
Defined.

Lemma X11_witness :
  exists cur',
    (run store_client (default_module false)
       (remote (run store_client (default_module false)
                  {["ldap" := stored_other_url]}).1)).2
      = Returns (Done false cur' default_desired) /\
    writes (calls (run store_client (default_module false)
                     (remote (run store_client (default_module false)
                                {["ldap" := stored_other_url]}).1)).1)
      = [].
Proof.
  apply (X11_second_run_unchanged store_client (VStr "ldap")
           (default_module false) {["ldap" := stored_other_url]}
           default_desired stored_other_url).
  - exact store_client_reads_its_writes.
  - reflexivity.
  - reflexivity.
  - reflexivity.
Defined.

(** The desired state for the user attribute of an Active Directory. *)
Definition desired_sam_account_name : kwdict :=
  Eval vm_compute in
    match desired_state (<["userattr" := VStr "sAMAccountName"]> default_params)
    with
    | Returns d => d
    | Raises _ => []
    end.

Lemma X12_witness : differ_only_in_case "sAMAccountName" "samaccountname".
Proof.
  apply (X12_same_desired_state_only_case default_params "userattr"
           "sAMAccountName" "samaccountname" desired_sam_account_name);
    [right|..]; reflexivity.
Defined.

(** A base schema that declares the server address under ["url"] and, as
    well, a [mount_point] of its own. *)
Definition base_with_url : gmap string FieldSpec :=
  <["url" := field TStr (VStr "") []]>
    (<["mount_point" := field TStr (VStr "approle") []]> ∅).

Lemma X13_witness :
  argspec base_with_url !! "mount_point"
    = Some (field TStr (VStr "ldap") []) /\
  argspec base_with_url !! "url" = Some (field TStr (VStr "") []).
Proof.
  destruct (X13_argspec_overrides_base base_with_url "mount_point"
              (field TStr (VStr "ldap") [])) as [H1 H2].
  - left.
  - split; [exact H1|]. rewrite H2; [reflexivity|].
    intros H. apply list_elem_of_In in H. vm_compute in H.
    intuition discriminate.
Defined.

Lemma X14_witness :
  calls (run store_client
           (with_mount_point (default_module false) (VStr "corp"))
           (remote (run store_client
                      (with_mount_point (default_module false) (VStr "corp"))
                      {["corp" := stored_other_url]}).1)).1
    = [read_configuration_call (VStr "corp");
       configure_call default_desired].
Proof.
  destruct (X14_other_mount_never_converges store_client (VStr "ldap")
              (with_mount_point (default_module false) (VStr "corp"))
              {["corp" := stored_other_url]} default_desired stored_other_url)
    as [_ H].
  - exact store_client_keeps_mounts_apart.
  - discriminate.
  - reflexivity.
  - reflexivity.
  - exact H.
Defined.
